(** * An in-memory tree of containers and records: [main.c]

    Shallow embedding of [zero], [create_node], [find_last_linear] and
    [create_leaf] of [main.c], over the structures of [main.h]
    ([struct s_node], [struct s_leaf], the tags).

    The C heap is an append-only arena of typed blocks: a pointer is an
    optional block index ([None] is [NULL]); [malloc] either appends a block
    of indeterminate contents or fails, as an oracle carried by the state
    decides.  A function is a state transformer whose outcome tells a normal
    return from a failed [assert], an invalid memory access and a loop that
    never ends. *)

From Stdlib Require Import ZArith List Lia Bool.
From Stdlib Require Import Strings.Byte.
From stdpp Require Import base list.
Import ListNotations.

Local Open Scope Z_scope.

(** ** Data model *)

(** The address of a block: its index in the heap. *)
Abbreviation addr := nat (only parsing).

(** A pointer: [None] is [NULL]. *)
Definition ptr := option addr.

(** [#define TagRoot 1], [TagNode 2], [TagLeaf 3]; [typedef unsigned char Tag]. *)
Definition TagRoot : Z := 1.
Definition TagNode : Z := 2.
Definition TagLeaf : Z := 3.

Definition NUL : byte := "000"%byte.

(** [struct s_node]. *)
Record Node := mkNode {
  n_north : ptr;          (* struct s_node *north : parent container *)
  n_west : ptr;           (* struct s_node *west  : child container *)
  n_east : ptr;           (* struct s_leaf *east  : first record *)
  n_path : list byte;     (* uint8_t path[256] *)
  n_tag : Z               (* Tag tag *)
}.

(** [struct s_leaf]. *)
Record Leaf := mkLeaf {
  l_west : ptr;           (* union u_tree *west : container or previous record *)
  l_east : ptr;           (* struct s_leaf *east : next record *)
  l_key : list byte;      (* int8_t key[128] *)
  l_value : ptr;          (* int8_t *value *)
  l_size : Z;             (* int16_t size *)
  l_tag : Z               (* Tag tag *)
}.

(** What a block was allocated for: the type the result of [malloc] is cast
    to, or a byte buffer of [n] bytes. *)
Inductive kind := KNode | KLeaf | KBuf (n : nat).

(** The contents of a block.  [Undef k] is a block fresh from [malloc]: its
    contents are indeterminate until [zero] fills it. *)
Inductive cell :=
| Undef (k : kind)
| CNode (n : Node)
| CLeaf (l : Leaf)
| CBuf (bs : list byte).

Definition PATH_CAP : nat := 256.   (* sizeof(node->path) *)
Definition KEY_CAP : nat := 128.    (* sizeof(leaf->key) *)

(** [sizeof(struct s_node)] and [sizeof(struct s_leaf)] with 8-byte pointers
    and natural alignment; both fit the [uint16_t] they are stored in. *)
Definition sizeof_node : Z := 288.
Definition sizeof_leaf : Z := 160.

Definition zero_node : Node := mkNode None None None (repeat NUL PATH_CAP) 0.
Definition zero_leaf : Leaf := mkLeaf None None (repeat NUL KEY_CAP) None 0 0.

(** ** Machine state *)

(** The checks of the program, to tell which one stopped it. *)
Inductive assertion :=
| A_zero_ptr          (* zero: ptr != NULL *)
| A_node_parent       (* create_node: parent != NULL *)
| A_find_parent       (* find_last_linear: parent != NULL *)
| A_find_current      (* find_last_linear: current_leaf != NULL *)
| A_leaf_parent       (* create_leaf: parent != NULL *)
| A_leaf_new          (* create_leaf: assert(new_leaf) *)
| A_leaf_value.       (* create_leaf: assert(new_leaf->value) *)

Record state := mkState {
  heap : list cell;            (* the blocks, by address *)
  errno : Z;
  oracle : list bool;          (* whether the next calls of malloc succeed *)
  trail : list (list cell)     (* ghost: the heap after each write, newest first *)
}.

Inductive outcome (A : Type) :=
| Ok (a : A) (s : state)              (* the function returned a *)
| Abort (c : assertion) (s : state)   (* a failed assert ended the program *)
| Fault (s : state)                   (* invalid memory access *)
| Diverge.                            (* the loop does not end *)
Arguments Ok {A} a s.
Arguments Abort {A} c s.
Arguments Fault {A} s.
Arguments Diverge {A}.

Definition M (A : Type) := state -> outcome A.

Definition ret {A} (a : A) : M A := fun s => Ok a s.

Definition bind {A B} (m : M A) (f : A -> M B) : M B :=
  fun s =>
    match m s with
    | Ok a s' => f a s'
    | Abort c s' => Abort c s'
    | Fault s' => Fault s'
    | Diverge => Diverge
    end.

Notation "'let*' x ':=' m 'in' k" := (bind m (fun x => k))
  (at level 10, x name, m at level 100, k at level 200).
Notation "m ;; k" := (bind m (fun _ => k))
  (at level 100, k at level 200, right associativity).

Definition is_ok {A} (o : outcome A) : bool :=
  match o with Ok _ _ => true | _ => false end.

(** [assert(c)]. *)
Definition assert (c : assertion) (b : bool) : M unit :=
  fun s => if b then Ok tt s else Abort c s.

Definition fault {A} : M A := fun s => Fault s.

Definition is_null (p : ptr) : bool :=
  match p with None => true | Some _ => false end.

(** The state after a write: the heap is replaced and the new heap recorded. *)
Definition upd (s : state) (h : list cell) : state :=
  mkState h (errno s) (oracle s) (h :: trail s).

Definition put_heap (h : list cell) : M unit := fun s => Ok tt (upd s h).

Definition set_errno (e : Z) : M unit :=
  fun s => Ok tt (mkState (heap s) e (oracle s) (trail s)).

Definition ENOMEM : Z := 12.

(** Modelled from the spec: the error code [NoError] of the header that
    [main.c] includes is not among the sources; the comment at its use says
    "Set errno to NoError (0)". *)
Definition NoError : Z := 0.

(** [malloc]: a new block of indeterminate contents at the next address, or
    [NULL] with [errno] set to [ENOMEM]. *)
Definition malloc (k : kind) : M ptr :=
  fun s =>
    match oracle s with
    | true :: o =>
        let h := heap s ++ [Undef k] in
        Ok (Some (length (heap s))) (mkState h (errno s) o (h :: trail s))
    | false :: o => Ok None (mkState (heap s) ENOMEM o (trail s))
    | [] => Ok None (mkState (heap s) ENOMEM [] (trail s))
    end.

(** Reading a block; an address that holds none is an invalid access. *)
Definition load (a : addr) : M cell :=
  fun s => match heap s !! a with Some c => Ok c s | None => Fault s end.

Definition load_node (a : addr) : M Node :=
  let* c := load a in match c with CNode n => ret n | _ => fault end.

Definition load_leaf (a : addr) : M Leaf :=
  let* c := load a in match c with CLeaf l => ret l | _ => fault end.

Definition store (a : addr) (c : cell) : M unit :=
  fun s => put_heap (<[a := c]> (heap s)) s.

(** [memset(ptr, 0, size)] on a block.  A structure is filled whole (the
    program only ever passes the size of the block itself); a byte buffer
    gets its first [size] bytes cleared.  [None] where the write leaves the
    block or the result is a partly indeterminate block. *)
Definition memset0 (c : cell) (size : Z) : option cell :=
  match c with
  | Undef KNode | CNode _ =>
      if size =? sizeof_node then Some (CNode zero_node) else None
  | Undef KLeaf | CLeaf _ =>
      if size =? sizeof_leaf then Some (CLeaf zero_leaf) else None
  | Undef (KBuf n) =>
      if size =? Z.of_nat n then Some (CBuf (repeat NUL n)) else None
  | CBuf bs =>
      if (0 <=? size) && (size <=? Z.of_nat (length bs))
      then Some (CBuf (repeat NUL (Z.to_nat size) ++ drop (Z.to_nat size) bs))
      else None
  end.

(** ** [zero] *)

Definition zero (p : ptr) (size : Z) : M unit :=
  assert A_zero_ptr (negb (is_null p)) ;;
  match p with
  | None => fault
  | Some a =>
      let* c := load a in
      match memset0 c size with
      | Some c' => store a c'
      | None => fault
      end
  end.

(** ** Strings *)

(** The C string held by a buffer: the bytes before the first NUL. *)
Fixpoint cstr (bs : list byte) : list byte :=
  match bs with
  | [] => []
  | b :: bs' => if Byte.eqb b NUL then [] else b :: cstr bs'
  end.

(** [snprintf(dst, n, "%s", src)] on a buffer [dst] of [n] bytes: at most
    [n - 1] bytes of the string, then a NUL; the rest of [dst] is kept. *)
Definition snprintf_s (dst : list byte) (n : nat) (src : list byte) : list byte :=
  match n with
  | O => dst
  | S m =>
      let c := take m (cstr src) in
      c ++ [NUL] ++ drop (S (length c)) dst
  end.

(** [strncpy(dst, src, n)] where [dst] has at least [n] bytes: the string cut
    at [n] bytes, padded with NULs to exactly [n] bytes; no NUL is added when
    the string has [n] bytes or more. *)
Definition strncpy (dst : list byte) (src : list byte) (n : nat) : list byte :=
  let c := take n (cstr src) in
  c ++ repeat NUL (n - length c) ++ drop n dst.

(** The integer conversions at the parameters and fields. *)
Definition u8 (z : Z) : Z := z mod 256.
Definition u16 (z : Z) : Z := z mod 65536.
Definition int16 (z : Z) : Z :=
  let m := z mod 65536 in if m <? 32768 then m else m - 65536.

(** ** Field assignments *)

Definition with_n_north (v : ptr) (n : Node) : Node :=
  mkNode v (n_west n) (n_east n) (n_path n) (n_tag n).
Definition with_n_west (v : ptr) (n : Node) : Node :=
  mkNode (n_north n) v (n_east n) (n_path n) (n_tag n).
Definition with_n_east (v : ptr) (n : Node) : Node :=
  mkNode (n_north n) (n_west n) v (n_path n) (n_tag n).
Definition with_n_path (v : list byte) (n : Node) : Node :=
  mkNode (n_north n) (n_west n) (n_east n) v (n_tag n).
Definition with_n_tag (v : Z) (n : Node) : Node :=
  mkNode (n_north n) (n_west n) (n_east n) (n_path n) v.

Definition with_l_west (v : ptr) (l : Leaf) : Leaf :=
  mkLeaf v (l_east l) (l_key l) (l_value l) (l_size l) (l_tag l).
Definition with_l_east (v : ptr) (l : Leaf) : Leaf :=
  mkLeaf (l_west l) v (l_key l) (l_value l) (l_size l) (l_tag l).
Definition with_l_key (v : list byte) (l : Leaf) : Leaf :=
  mkLeaf (l_west l) (l_east l) v (l_value l) (l_size l) (l_tag l).
Definition with_l_value (v : ptr) (l : Leaf) : Leaf :=
  mkLeaf (l_west l) (l_east l) (l_key l) v (l_size l) (l_tag l).
Definition with_l_size (v : Z) (l : Leaf) : Leaf :=
  mkLeaf (l_west l) (l_east l) (l_key l) (l_value l) v (l_tag l).
Definition with_l_tag (v : Z) (l : Leaf) : Leaf :=
  mkLeaf (l_west l) (l_east l) (l_key l) (l_value l) (l_size l) v.

(** [((Node * )a)->field = ...]: the block at [a] must hold a node. *)
Definition node_set (f : Node -> Node) (a : addr) : M unit :=
  let* n := load_node a in store a (CNode (f n)).

(** [((Leaf * )a)->field = ...]: the block at [a] must hold a record. *)
Definition leaf_set (f : Leaf -> Leaf) (a : addr) : M unit :=
  let* l := load_leaf a in store a (CLeaf (f l)).

(** [assert(p != NULL)] followed by uses of [p]. *)
Definition nonnull (c : assertion) (p : ptr) : M addr :=
  match p with
  | Some a => ret a
  | None => fun s => Abort c s
  end.

(** ** [create_node] *)

Definition create_node (parent : ptr) (path : list byte) : M ptr :=
  let* p := nonnull A_node_parent parent in
  let node_size := sizeof_node in
  let* node := malloc KNode in
  match node with
  | None => ret None                            (* perror(...); return NULL; *)
  | Some a =>
      zero (Some a) node_size ;;
      node_set (with_n_west (Some a)) p ;;      (* parent->west = node; *)
      node_set (with_n_tag TagNode) a ;;        (* node->tag = TagNode; *)
      node_set (with_n_north (Some p)) a ;;     (* node->north = parent; *)
      node_set (with_n_east None) a ;;          (* node->east = NULL; *)
      (let* n := load_node a in                 (* snprintf(node->path, ...); *)
       node_set (with_n_path (snprintf_s (n_path n) PATH_CAP path)) a) ;;
      ret (Some a)
  end.

(** ** [find_last_linear] *)

(** Modelled from the spec: the macro [reterr] of the header that [main.c]
    includes is not among the sources.  The comment at its use says that it
    sets [errno] and returns [NULL], and the spec that the result is empty. *)
Definition reterr (e : Z) : M ptr := set_errno e ;; ret None.

(** The loop [while (current_leaf->east != NULL)].  A chain of distinct
    records in a heap of [n] blocks has at most [n] of them: with as many
    rounds allowed, running out of them means the chain runs in a circle. *)
Fixpoint walk (fuel : nat) (current_leaf : addr) : M ptr :=
  let* l := load_leaf current_leaf in
  match l_east l with
  | None => ret (Some current_leaf)
  | Some next =>
      match fuel with
      | O => fun _ => Diverge
      | S fuel' =>
          assert A_find_current (negb (is_null (Some current_leaf))) ;;
          walk fuel' next
      end
  end.

Definition find_last_linear (parent : ptr) : M ptr :=
  let* p := nonnull A_find_parent parent in
  let* n := load_node p in
  match n_east n with
  | None => reterr NoError
  | Some first => fun s => walk (length (heap s)) first s
  end.

(** Modelled from the spec: the macro [find_last] of the header that
    [main.c] includes is not among the sources; the spec has [appendRecord]
    locate the tail of the chain with [findChainTail]. *)
Definition find_last (parent : ptr) : M ptr := find_last_linear parent.

(** ** [create_leaf] *)

Section Forged.

(** [create_leaf] takes its value as a [uint8_t] and reads through
    [(char * )value]: a pointer made from an integer below 256, that no
    [malloc] returned.  [lowmem] is what a byte read at such an address
    gives, [None] where the address is not readable. *)
Variable lowmem : Z -> option byte.

(** The reads of [strncpy(dst, (char * )src, n)]: the bytes copied before
    the NUL or the [n]-th byte, and whether a read failed first. *)
Fixpoint read_str (src : Z) (n : nat) : list byte * bool :=
  match n with
  | O => ([], true)
  | S m =>
      match lowmem src with
      | None => ([], false)
      | Some b =>
          if Byte.eqb b NUL then ([], true)
          else let '(bs, ok) := read_str (src + 1) m in (b :: bs, ok)
      end
  end.

Definition strncpy_forged (dst : ptr) (src : Z) (n : nat) : M unit :=
  match dst with
  | None => fault
  | Some d =>
      let* c := load d in
      match c with
      | CBuf old =>
          if (n <=? length old)%nat then
            let '(bs, ok) := read_str src n in
            if ok then store d (CBuf (strncpy old bs n))
            else store d (CBuf (bs ++ drop (length bs) old)) ;; fault
          else fault
      | _ => fault
      end
  end.

Definition create_leaf (parent : ptr) (key : list byte) (count value : Z)
  : M ptr :=
  let count := u16 count in                     (* uint16_t count *)
  let value := u8 value in                      (* uint8_t value *)
  let* p := nonnull A_leaf_parent parent in
  let* leaf := find_last parent in
  let size := sizeof_leaf in
  let* new_leaf := malloc KLeaf in
  let* a := nonnull A_leaf_new new_leaf in      (* assert(new_leaf); *)
  match leaf with
  | None => node_set (with_n_east (Some a)) p   (* parent->east = new_leaf; *)
  | Some t => leaf_set (with_l_east (Some a)) t (* leaf->east = new_leaf; *)
  end ;;
  zero (Some a) size ;;
  leaf_set (with_l_tag TagLeaf) a ;;            (* new_leaf->tag = TagLeaf; *)
  leaf_set (with_l_west (match leaf with
                         | None => Some p       (* new_leaf->west = parent; *)
                         | Some t => Some t     (* new_leaf->west = leaf; *)
                         end)) a ;;
  (let* l := load_leaf a in                     (* strncpy(new_leaf->key, key, 127); *)
   leaf_set (with_l_key (strncpy (l_key l) key 127)) a) ;;
  (let* v := malloc (KBuf (Z.to_nat count)) in  (* new_leaf->value = malloc(count); *)
   leaf_set (with_l_value v) a) ;;
  (let* l := load_leaf a in zero (l_value l) count) ;;
  (let* l := load_leaf a in                     (* assert(new_leaf->value); *)
   assert A_leaf_value (negb (is_null (l_value l)))) ;;
  (let* l := load_leaf a in                     (* strncpy(new_leaf->value, value, count); *)
   strncpy_forged (l_value l) value (Z.to_nat count)) ;;
  leaf_set (with_l_size (int16 count)) a ;;     (* new_leaf->size = count; *)
  ret leaf.

End Forged.

(** No address below 256 is readable: every read through a pointer made
    from the value byte is invalid. *)
Definition unmapped : Z -> option byte := fun _ => None.

(** ** The root, as [main] sets it up *)

(** [Tree root], zero-initialised as a global, after the assignments at the
    top of [main]. *)
Definition root : Node := mkNode None None None (repeat NUL PATH_CAP) TagRoot.

Definition init_state (o : list bool) : state :=
  mkState [CNode root] 0 o [].

(** ** Reading the structure *)

Definition node_at (h : list cell) (a : addr) : option Node :=
  match h !! a with Some (CNode n) => Some n | _ => None end.

Definition leaf_at (h : list cell) (a : addr) : option Leaf :=
  match h !! a with Some (CLeaf l) => Some l | _ => None end.

Definition buf_at (h : list cell) (p : ptr) : option (list byte) :=
  match p with
  | None => None
  | Some a => match h !! a with Some (CBuf bs) => Some bs | _ => None end
  end.

(** The records met from [first] along the sibling links, up to the one
    whose sibling link is [NULL]. *)
Inductive chain (h : list cell) : ptr -> list addr -> Prop :=
| chain_nil : chain h None []
| chain_cons a l rs :
    h !! a = Some (CLeaf l) -> chain h (l_east l) rs -> chain h (Some a) (a :: rs).

(** The address of the block that the next successful [malloc] returns: in
    [create_node] the new container, in [create_leaf] the new record. *)
Definition next_block (s : state) : addr := length (heap s).

(** A buffer holds a NUL-terminated string of at most [n] bytes. *)
Definition terminated_within (n : nat) (buf : list byte) : Prop :=
  (length (cstr buf) <= n)%nat /\ buf !! length (cstr buf) = Some NUL.

(** A successful [create_node] returns the new container; [NULL] reports a
    failed allocation. *)
Definition returned_block {A} (o : outcome (option A)) : bool :=
  match o with Ok (Some _) _ => true | _ => false end.

Definition aborted_by {A} (c : assertion) (o : outcome A) : bool :=
  match o with
  | Abort c' _ =>
      match c, c' with
      | A_zero_ptr, A_zero_ptr | A_node_parent, A_node_parent
      | A_find_parent, A_find_parent | A_find_current, A_find_current
      | A_leaf_parent, A_leaf_parent | A_leaf_new, A_leaf_new
      | A_leaf_value, A_leaf_value => true
      | _, _ => false
      end
  | _ => false
  end.

(** ** Observing a call in progress *)

(** The heaps that a call from [s] to [s'] went through, newest first. *)
Definition heaps_during (s s' : state) : list (list cell) :=
  take (length (trail s') - length (trail s)) (trail s').

(** A link of the block at [q] (the child link or the chain head of a
    container, the sibling link of a record) points at [a]. *)
Definition links_to (h : list cell) (q a : addr) : bool :=
  match h !! q with
  | Some (CNode n) =>
      bool_decide (n_west n = Some a) || bool_decide (n_east n = Some a)
  | Some (CLeaf l) => bool_decide (l_east l = Some a)
  | _ => false
  end.

Definition has_tag (h : list cell) (a : addr) (t : Z) : bool :=
  match h !! a with
  | Some (CNode n) => n_tag n =? t
  | Some (CLeaf l) => l_tag l =? t
  | _ => false
  end.

(** In [h], one of the first [old] blocks links to [a] while the block at
    [a] does not carry the tag [t]. *)
Definition linked_untagged (old : nat) (a : addr) (t : Z) (h : list cell) : bool :=
  existsb (fun q => links_to h q a) (seq 0 old) && negb (has_tag h a t).

(** ** The results, written out *)

(** The container that [create_node] builds below [p]. *)
Definition new_node (p : addr) (path : list byte) : Node :=
  mkNode (Some p) None None (snprintf_s (repeat NUL PATH_CAP) PATH_CAP path) TagNode.

(** The state [find_last_linear] returns in: only [errno] may differ. *)
Definition after_find (s : state) (r : ptr) : state :=
  match r with
  | None => mkState (heap s) NoError (oracle s) (trail s)
  | Some _ => s
  end.

(** The heap once the new record [a] hangs behind the tail [r] of the chain
    of [p], or at its head when the chain is empty. *)
Definition attach (h : list cell) (p : addr) (r : ptr) (a : addr) : list cell :=
  match r with
  | None =>
      match h !! p with
      | Some (CNode n) => <[p := CNode (with_n_east (Some a) n)]> h
      | _ => h
      end
  | Some t =>
      match h !! t with
      | Some (CLeaf l) => <[t := CLeaf (with_l_east (Some a) l)]> h
      | _ => h
      end
  end.

Definition back_ref (p : addr) (r : ptr) : ptr :=
  match r with None => Some p | Some t => Some t end.

Definition new_leaf (p : addr) (r : ptr) (key : list byte) (v : ptr) (size : Z) : Leaf :=
  mkLeaf (back_ref p r) None (strncpy (repeat NUL KEY_CAP) key 127) v size TagLeaf.

(** The property that a linked entity is never seen untagged, for the call
    from [s] to [s'] that creates the block [a] with the tag [t]. *)
Definition tagged_when_linked (s s' : state) (a : addr) (t : Z) : Prop :=
  forall h, In h (heaps_during s s') ->
            linked_untagged (length (heap s)) a t h = false.

(** The state a call stopped in. *)
Definition final_state {A} (o : outcome A) : state :=
  match o with
  | Ok _ s | Abort _ s | Fault s => s
  | Diverge => init_state []
  end.

(** A call reports a failure by returning [NULL]. *)
Definition reports_empty {A} (o : outcome (option A)) : bool :=
  match o with Ok None _ => true | _ => false end.

(** ** Sample inputs *)

Definition k1 : list byte := ["k"; "1"]%byte.

(** A machine on which the bytes 1, 2, 3 can be read at the addresses
    200, 201 and 202, and nothing else below 256. *)
Definition lowmem_123 (a : Z) : option byte :=
  if a =? 200 then Some "001"%byte
  else if a =? 201 then Some "002"%byte
  else if a =? 202 then Some "003"%byte
  else None.

(** A checker for [chain]. *)
Fixpoint is_chain (h : list cell) (q : ptr) (rs : list addr) : bool :=
  match rs, q with
  | [], None => true
  | a :: rs', Some a' =>
      (a =? a')%nat
      && match h !! a with
         | Some (CLeaf l) => is_chain h (l_east l) rs'
         | _ => false
         end
  | _, _ => false
  end.

(** The root with one container below it. *)
Definition one_container : state :=
  final_state (create_node (Some 0%nat) k1 (init_state [true; true])).

(** One more record for the root, with the key "k1" and the 3 bytes read
    at address 200. *)
Definition append_k1 (s : state) : state :=
  final_state (create_leaf lowmem_123 (Some 0%nat) k1 3 200 s).

Definition no_records : state := init_state (repeat true 6).
Definition one_record : state := append_k1 no_records.
Definition two_records : state := append_k1 one_record.
Definition three_records : state := append_k1 two_records.

(** One more record for the root, with an empty value, on a machine where
    no address below 256 is readable. *)
Definition append_empty (s : state) : state :=
  final_state (create_leaf unmapped (Some 0%nat) k1 0 0 s).

Definition one_empty : state := append_empty no_records.
Definition two_empty : state := append_empty one_empty.
Definition three_empty : state := append_empty two_empty.

(** A string of 300 bytes, longer than either field. *)
Definition long_name : list byte := repeat "a"%byte 300.

Definition long_container : state :=
  final_state (create_node (Some 0%nat) long_name (init_state [true])).

Definition long_record : state :=
  final_state (create_leaf lowmem_123 (Some 0%nat) long_name 3 200 no_records).

(** The key that [main] uses. *)
Definition sample_key : list byte :=
  ["s"; "a"; "m"; "p"; "l"; "e"; "_"; "k"; "e"; "y"]%byte.

(** The root after the search of its empty chain. *)
Definition searched (o : list bool) : state :=
  mkState [CNode root] NoError o [].

(** ** [main] *)

(** The program at its start: [Tree root] is a global, filled with zeros. *)
Definition boot (o : list bool) : state := mkState [CNode zero_node] 0 o [].

(** The blocks handed to [free]; [free(NULL)] releases nothing. *)
Definition released (ps : list ptr) : list addr := omap id ps.

(** The assignments to [root.node] at the top of [main]. *)
Definition init_root : M unit :=
  node_set (with_n_north None) 0 ;;             (* root.node.north = NULL; *)
  node_set (with_n_west None) 0 ;;              (* root.node.west = NULL; *)
  node_set (with_n_east None) 0 ;;              (* root.node.east = NULL; *)
  node_set (with_n_tag TagRoot) 0 ;;            (* root.node.tag = TagRoot; *)
  let* r := load_node 0 in                      (* root.node.path[0] = 0; *)
  node_set (with_n_path (<[0%nat := NUL]> (n_path r))) 0.

(** [main] of [main.c]: its result is the exit status together with the
    blocks it has passed to [free], in that order.  The output it prints is
    left out. *)
Definition main (lowmem : Z -> option byte) : M (Z * list addr) :=
  let rootNodeAddress : ptr := Some 0%nat in
  init_root ;;
  let* r := load_node 0 in
  let* newNode := create_node rootNodeAddress (n_path r) in
  if is_null newNode then ret (1, [])
  else
    let* newLeaf := create_leaf lowmem newNode sample_key 10 200 in
    if is_null newLeaf then ret (1, released [newNode])
    else ret (0, released [newLeaf; newNode]).

(** The earlier [main], that only creates a container: [create_node] is the
    same there. *)
Definition main_node_only : M (Z * list addr) :=
  let rootAddress : ptr := Some 0%nat in
  init_root ;;
  let* r := load_node 0 in
  let* node := create_node rootAddress (n_path r) in
  if is_null node then ret (1, [])
  else ret (0, released [node]).

(** ** Properties of the structure *)

(** The back-references along a chain: the first record refers to [prev],
    each later one to the record before it. *)
Fixpoint backlinked (h : list cell) (prev : addr) (rs : list addr) : bool :=
  match rs with
  | [] => true
  | a :: rs' =>
      match h !! a with
      | Some (CLeaf l) => bool_decide (l_west l = Some prev) && backlinked h a rs'
      | _ => false
      end
  end.

(** The block carries the tag of what it holds. *)
Definition cell_tagged (c : cell) : bool :=
  match c with
  | CNode n => (n_tag n =? TagRoot) || (n_tag n =? TagNode)
  | CLeaf l => l_tag l =? TagLeaf
  | _ => true
  end.

Definition well_tagged (h : list cell) : bool := forallb cell_tagged h.

(** The record at [a], if there is one, has a value buffer of its own
    length: [l_size] read back as the [uint16_t] it was assigned from. *)
Definition value_fits (h : list cell) (c : cell) : bool :=
  match c with
  | CLeaf l =>
      match buf_at h (l_value l) with
      | Some bs => Z.of_nat (length bs) =? u16 (l_size l)
      | None => false
      end
  | _ => true
  end.

Definition values_fit (h : list cell) : bool := forallb (value_fits h) h.

(** The value pointers of the records of [h], in address order. *)
Definition value_pointers (h : list cell) : list addr :=
  omap (fun c => match c with CLeaf l => l_value l | _ => None end) h.

(** A set of records closed under the sibling link, none of which ends a
    chain: a chain that enters it runs in a circle. *)
Definition circular (h : list cell) (ring : list addr) : Prop :=
  forall a, a ∈ ring ->
    exists l next, h !! a = Some (CLeaf l) /\ l_east l = Some next /\ next ∈ ring.

(** ** More sample inputs *)

(** A machine on which the bytes 1, 0, 3 can be read at the addresses
    200, 201 and 202. *)
Definition lowmem_103 (a : Z) : option byte :=
  if a =? 200 then Some "001"%byte
  else if a =? 201 then Some NUL
  else if a =? 202 then Some "003"%byte
  else None.

(** A machine on which every address below 256 reads as zero. *)
Definition lowmem_zero : Z -> option byte := fun _ => Some NUL.

(** The root with a container below it and a record of its own. *)
Definition container_and_record : state :=
  final_state (create_leaf lowmem_123 (Some 0%nat) k1 3 200
                 (final_state (create_node (Some 0%nat) k1 (init_state (repeat true 8))))).

(** The same with a record in the container as well. *)
Definition two_chains : state :=
  final_state (create_leaf lowmem_123 (Some 1%nat) k1 3 200 container_and_record).

(** A record that is its own sibling. *)
Definition looping : state :=
  mkState [CNode (with_n_east (Some 1%nat) root);
           CLeaf (with_l_east (Some 1%nat) zero_leaf)] 0 [] [].

(** * Proofs *)

Arguments snprintf_s : simpl never.
Arguments strncpy : simpl never.

(** ** Running the primitives *)

Lemma bind_ok {A B} (m : M A) (f : A -> M B) s a s' :
  m s = Ok a s' -> bind m f s = f a s'.
Proof. unfold bind. intros ->. reflexivity. Qed.

Lemma bind_abort {A B} (m : M A) (f : A -> M B) s c s' :
  m s = Abort c s' -> bind m f s = Abort c s'.
Proof. unfold bind. intros ->. reflexivity. Qed.

Lemma bind_fault {A B} (m : M A) (f : A -> M B) s s' :
  m s = Fault s' -> bind m f s = Fault s'.
Proof. unfold bind. intros ->. reflexivity. Qed.

Lemma bind_assoc {A B C} (m : M A) (f : A -> M B) (g : B -> M C) s :
  bind (bind m f) g s = bind m (fun x => bind (f x) g) s.
Proof. unfold bind. destruct (m s); reflexivity. Qed.

Lemma load_run s a c : heap s !! a = Some c -> load a s = Ok c s.
Proof. unfold load. intros ->. reflexivity. Qed.

Lemma load_node_run s a n :
  heap s !! a = Some (CNode n) -> load_node a s = Ok n s.
Proof.
  intros H. unfold load_node.
  rewrite (bind_ok _ _ _ _ _ (load_run _ _ _ H)). reflexivity.
Qed.

Lemma load_leaf_run s a l :
  heap s !! a = Some (CLeaf l) -> load_leaf a s = Ok l s.
Proof.
  intros H. unfold load_leaf.
  rewrite (bind_ok _ _ _ _ _ (load_run _ _ _ H)). reflexivity.
Qed.

(** A read either returns, leaving the state as it is, or is invalid. *)
Lemma load_node_cases s a :
  (exists n, heap s !! a = Some (CNode n) /\ load_node a s = Ok n s)
  \/ load_node a s = Fault s.
Proof.
  unfold load_node, bind, load.
  destruct (heap s !! a) as [[k|n|l|bs]|]; eauto.
Qed.

Lemma load_leaf_cases s a :
  (exists l, heap s !! a = Some (CLeaf l) /\ load_leaf a s = Ok l s)
  \/ load_leaf a s = Fault s.
Proof.
  unfold load_leaf, bind, load.
  destruct (heap s !! a) as [[k|n|l|bs]|]; eauto.
Qed.

Lemma node_set_run f s a n :
  heap s !! a = Some (CNode n) ->
  node_set f a s = Ok tt (upd s (<[a := CNode (f n)]> (heap s))).
Proof.
  intros H. unfold node_set.
  rewrite (bind_ok _ _ _ _ _ (load_node_run _ _ _ H)). reflexivity.
Qed.

Lemma leaf_set_run f s a l :
  heap s !! a = Some (CLeaf l) ->
  leaf_set f a s = Ok tt (upd s (<[a := CLeaf (f l)]> (heap s))).
Proof.
  intros H. unfold leaf_set.
  rewrite (bind_ok _ _ _ _ _ (load_leaf_run _ _ _ H)). reflexivity.
Qed.

Lemma zero_run s a c c' size :
  heap s !! a = Some c -> memset0 c size = Some c' ->
  zero (Some a) size s = Ok tt (upd s (<[a := c']> (heap s))).
Proof.
  intros H Hm. unfold zero. rewrite (bind_ok _ _ s tt s) by reflexivity.
  rewrite (bind_ok _ _ _ _ _ (load_run _ _ _ H)). rewrite Hm. reflexivity.
Qed.

Lemma zero_null size s : zero None size s = Abort A_zero_ptr s.
Proof. reflexivity. Qed.

Lemma malloc_ok k s o :
  oracle s = true :: o ->
  malloc k s = Ok (Some (next_block s))
                 (mkState (heap s ++ [Undef k]) (errno s) o
                          ((heap s ++ [Undef k]) :: trail s)).
Proof. unfold malloc. intros ->. reflexivity. Qed.

Lemma malloc_fails k s :
  hd false (oracle s) = false ->
  malloc k s = Ok None (mkState (heap s) ENOMEM (tl (oracle s)) (trail s)).
Proof. unfold malloc. destruct (oracle s) as [|[] o]; simpl; congruence. Qed.

(** ** The heap as old blocks followed by the new ones *)

Lemma heap_get_new0 (H : list cell) a c r :
  a = length H -> (H ++ c :: r) !! a = Some c.
Proof. intros ->. by apply list_lookup_middle. Qed.

Lemma heap_get_new1 (H : list cell) a c0 c r :
  a = S (length H) -> (H ++ c0 :: c :: r) !! a = Some c.
Proof.
  intros ->. change (H ++ c0 :: c :: r) with (H ++ [c0] ++ c :: r).
  rewrite app_assoc. apply list_lookup_middle.
  rewrite length_app. simpl. lia.
Qed.

Lemma heap_set_new0 (H : list cell) a c c' r :
  a = length H -> <[a := c']> (H ++ c :: r) = H ++ c' :: r.
Proof. intros ->. by rewrite insert_app_r_alt, Nat.sub_diag by lia. Qed.

Lemma heap_set_new1 (H : list cell) a c0 c c' r :
  a = S (length H) -> <[a := c']> (H ++ c0 :: c :: r) = H ++ c0 :: c' :: r.
Proof.
  intros ->. rewrite insert_app_r_alt by lia.
  replace (S (length H) - length H)%nat with 1%nat by lia. reflexivity.
Qed.

Lemma heap_get_old (H : list cell) i r :
  (i < length H)%nat -> (H ++ r) !! i = H !! i.
Proof. apply lookup_app_l. Qed.

Lemma heap_set_old (H : list cell) i x r :
  (i < length H)%nat -> <[i := x]> (H ++ r) = <[i := x]> H ++ r.
Proof. apply insert_app_l. Qed.

Lemma snoc_snoc (H : list cell) c0 c : (H ++ [c0]) ++ [c] = H ++ [c0; c].
Proof. by rewrite <- app_assoc. Qed.

Ltac side :=
  unfold next_block; simpl heap;
  rewrite ?length_app, ?length_insert; simpl length; first [lia | done].

Ltac get_tac :=
  unfold next_block; simpl heap;
  first
    [ eassumption
    | rewrite heap_get_new0 by side; reflexivity
    | rewrite heap_get_new1 by side; reflexivity
    | rewrite heap_get_old by side; eassumption
    | rewrite list_lookup_insert_eq by side; reflexivity
    | rewrite heap_get_old by side; rewrite list_lookup_insert_eq by side; reflexivity
    | rewrite heap_get_old by side; rewrite list_lookup_insert_ne by side; eassumption ].

Ltac tidy :=
  cbv beta iota zeta; unfold upd;
  cbn [heap errno oracle trail
       n_north n_west n_east n_path n_tag
       l_west l_east l_key l_value l_size l_tag
       with_n_north with_n_west with_n_east with_n_path with_n_tag
       with_l_west with_l_east with_l_key with_l_value with_l_size with_l_tag];
  rewrite ?bind_assoc, ?snoc_snoc;
  rewrite ?heap_set_new0, ?heap_set_new1, ?heap_set_old by side;
  unfold next_block; cbn [heap];
  rewrite ?length_app, ?length_insert; cbn [length]; rewrite ?Nat.add_1_r.

(** One statement: rewrite the head of the sequence with its run lemma. *)
Ltac step lem := (erewrite bind_ok; [| eapply lem; get_tac]); tidy.
Ltac step_zero := (erewrite bind_ok; [| eapply zero_run; [get_tac | reflexivity]]); tidy.
Ltac step_refl := (erewrite bind_ok; [| reflexivity]); tidy.
Ltac step_malloc := (erewrite bind_ok; [| apply malloc_ok; reflexivity]); tidy.

(** ** [create_node], case by case *)

Lemma create_node_null path s :
  create_node None path s = Abort A_node_parent s.
Proof. reflexivity. Qed.

Lemma create_node_no_memory p path s :
  hd false (oracle s) = false ->
  create_node (Some p) path s
  = Ok None (mkState (heap s) ENOMEM (tl (oracle s)) (trail s)).
Proof.
  intros Ho. unfold create_node.
  rewrite (bind_ok _ _ _ p s) by reflexivity. cbv zeta.
  rewrite (bind_ok _ _ _ _ _ (malloc_fails _ _ Ho)). reflexivity.
Qed.

Lemma create_node_run p np path s o :
  heap s !! p = Some (CNode np) -> oracle s = true :: o ->
  let a := next_block s in
  let linked := <[p := CNode (with_n_west (Some a) np)]> (heap s) in
  exists tr,
    create_node (Some p) path s
    = Ok (Some a)
         (mkState (linked ++ [CNode (new_node p path)]) (errno s) o
                  (tr ++ trail s))
    /\ In (linked ++ [CNode zero_node]) tr.
Proof.
  intros Hp Ho a linked. pose proof (lookup_lt_Some _ _ _ Hp) as Hlt.
  subst a linked. unfold create_node.
  rewrite (bind_ok _ _ _ p s) by reflexivity. cbv zeta.
  rewrite (bind_ok _ _ _ _ _ (malloc_ok _ _ _ Ho)). tidy.
  step_zero.
  step node_set_run.
  step node_set_run.
  step node_set_run.
  step node_set_run.
  step load_node_run.
  step node_set_run.
  eexists (_ :: _ :: _ :: _ :: _ :: _ :: [_]). split; [reflexivity |].
  simpl. tauto.
Qed.

(** A successful call, seen from its result. *)
Lemma create_node_ok_inv p np path s a s' :
  heap s !! p = Some (CNode np) ->
  create_node (Some p) path s = Ok (Some a) s' ->
  exists o tr,
    oracle s = true :: o /\ a = next_block s
    /\ s' = mkState (<[p := CNode (with_n_west (Some a) np)]> (heap s)
                       ++ [CNode (new_node p path)])
                    (errno s) o (tr ++ trail s)
    /\ In (<[p := CNode (with_n_west (Some a) np)]> (heap s)
             ++ [CNode zero_node]) tr.
Proof.
  intros Hp H. destruct (oracle s) as [|[] o] eqn:Ho.
  - rewrite create_node_no_memory in H by (rewrite Ho; reflexivity). discriminate.
  - destruct (create_node_run p np path s o Hp Ho) as (tr & Hrun & Htr).
    rewrite Hrun in H. injection H as <- <-. eauto 10.
  - rewrite create_node_no_memory in H by (rewrite Ho; reflexivity). discriminate.
Qed.

(** ** Chains *)

Lemma chain_functional h q rs rs' : chain h q rs -> chain h q rs' -> rs = rs'.
Proof.
  intros H. revert rs'. induction H as [|a l rs Ha _ IH]; intros rs' H'.
  - inversion H'. reflexivity.
  - inversion H' as [|a' l' rs0 Ha' Hc']; subst.
    rewrite Ha in Ha'. injection Ha' as <-. f_equal. auto.
Qed.

(** What follows a record of a chain is the chain from that record. *)
Lemma chain_from_member h q l1 a l2 :
  chain h q (l1 ++ a :: l2) -> chain h (Some a) (a :: l2).
Proof.
  revert q. induction l1 as [|b l1 IH]; intros q H; simpl in H.
  - inversion H; subst. econstructor; eauto.
  - inversion H; subst. eauto.
Qed.

Lemma chain_NoDup h q rs : chain h q rs -> NoDup rs.
Proof.
  induction 1 as [|a l rs Ha Hc IH]; constructor; [|assumption].
  intros Hin. apply list_elem_of_split in Hin as (l1 & l2 & ->).
  pose proof (chain_from_member _ _ _ _ _ Hc) as Hsuf.
  pose proof (chain_functional _ _ _ _ Hsuf (chain_cons _ _ _ _ Ha Hc)) as Heq.
  apply (f_equal length) in Heq. simpl in Heq. rewrite length_app in Heq.
  simpl in Heq. lia.
Qed.

Lemma chain_member_leaf h q rs a :
  chain h q rs -> a ∈ rs -> exists l, h !! a = Some (CLeaf l).
Proof.
  induction 1 as [|b l rs Hb Hc IH]; intros Hin.
  - by apply elem_of_nil in Hin.
  - apply elem_of_cons in Hin as [->|Hin]; eauto.
Qed.

Lemma chain_length h q rs : chain h q rs -> (length rs <= length h)%nat.
Proof.
  intros Hc.
  assert (rs ⊆+ seq 0 (length h)) as Hsub.
  { apply NoDup_submseteq; [by eapply chain_NoDup|].
    intros a Ha. destruct (chain_member_leaf _ _ _ _ Hc Ha) as [l Hl].
    apply lookup_lt_Some in Hl. apply elem_of_seq. lia. }
  apply submseteq_length in Hsub. by rewrite length_seq in Hsub.
Qed.

(** The last record of a chain is the one with no sibling. *)
Lemma chain_last h q rs r :
  chain h q rs -> last rs = Some r ->
  exists l, h !! r = Some (CLeaf l) /\ l_east l = None.
Proof.
  induction 1 as [|a l rs Ha Hc IH]; intros Hlast; [discriminate|].
  destruct rs as [|b rs].
  - simpl in Hlast. injection Hlast as <-. inversion Hc; subst. eauto.
  - rewrite last_cons_cons in Hlast. auto.
Qed.

Lemma chain_no_sibling_last h q rs a l :
  chain h q rs -> a ∈ rs -> h !! a = Some (CLeaf l) -> l_east l = None ->
  last rs = Some a.
Proof.
  induction 1 as [|b lb rs Hb Hc IH]; intros Hin Ha He.
  - by apply elem_of_nil in Hin.
  - apply elem_of_cons in Hin as [->|Hin].
    + rewrite Hb in Ha. injection Ha as ->. rewrite He in Hc.
      inversion Hc. reflexivity.
    + destruct rs as [|c rs]; [by apply elem_of_nil in Hin|].
      rewrite last_cons_cons. auto.
Qed.

(** ** [find_last_linear] *)

Lemma walk_chain fuel s a rs :
  chain (heap s) (Some a) rs -> (length rs <= S fuel)%nat ->
  walk fuel a s = Ok (last rs) s.
Proof.
  revert a rs. induction fuel as [|fuel IH]; intros a rs Hc Hlen;
    inversion Hc as [|a' l rs' Ha Hc']; subst; simpl walk;
    rewrite (bind_ok _ _ _ _ _ (load_leaf_run _ _ _ Ha));
    destruct (l_east l) as [next|] eqn:He.
  - inversion Hc'; subst. simpl in Hlen. lia.
  - inversion Hc'. reflexivity.
  - rewrite (bind_ok _ _ s tt s) by reflexivity.
    inversion Hc' as [|? l' rs'' ? ?]; subst. rewrite last_cons_cons.
    apply IH; [assumption | simpl in *; lia].
  - inversion Hc'. reflexivity.
Qed.

Lemma walk_ok_inv fuel s a r s' :
  walk fuel a s = Ok r s' ->
  s' = s /\ exists rs, chain (heap s) (Some a) rs /\ r = last rs.
Proof.
  revert a. induction fuel as [|fuel IH]; intros a H; simpl walk in H;
    destruct (load_leaf_cases s a) as [(l & Ha & Hl)|Hl];
    try (rewrite (bind_fault _ _ _ _ Hl) in H; discriminate);
    rewrite (bind_ok _ _ _ _ _ Hl) in H;
    destruct (l_east l) as [next|] eqn:He; try discriminate.
  - injection H as <- <-. split; [reflexivity|]. exists [a]. split; [|reflexivity].
    econstructor; [eassumption|]. rewrite He. constructor.
  - rewrite (bind_ok _ _ s tt s) in H by reflexivity.
    apply IH in H as (-> & rs & Hc & ->). split; [reflexivity|].
    exists (a :: rs). split.
    + econstructor; [eassumption|]. by rewrite He.
    + inversion Hc; subst. by rewrite last_cons_cons.
  - injection H as <- <-. split; [reflexivity|]. exists [a]. split; [|reflexivity].
    econstructor; [eassumption|]. rewrite He. constructor.
Qed.

Lemma find_last_linear_run s p np rs :
  heap s !! p = Some (CNode np) -> chain (heap s) (n_east np) rs ->
  find_last_linear (Some p) s = Ok (last rs) (after_find s (last rs)).
Proof.
  intros Hp Hc. unfold find_last_linear.
  rewrite (bind_ok _ _ _ p s) by reflexivity.
  rewrite (bind_ok _ _ _ _ _ (load_node_run _ _ _ Hp)).
  destruct (n_east np) as [first|] eqn:He.
  - rewrite (walk_chain _ _ _ rs Hc).
    + inversion Hc as [|? l rs' ? ?]; subst.
      destruct (last (first :: rs')) eqn:E; [reflexivity|].
      by apply last_None in E.
    + pose proof (chain_length _ _ _ Hc). lia.
  - inversion Hc. reflexivity.
Qed.

Lemma find_last_linear_ok_inv parent s r s' :
  find_last_linear parent s = Ok r s' ->
  exists p np rs,
    parent = Some p /\ heap s !! p = Some (CNode np)
    /\ chain (heap s) (n_east np) rs /\ r = last rs /\ s' = after_find s r.
Proof.
  intros H. destruct parent as [p|]; [|discriminate].
  unfold find_last_linear in H. rewrite (bind_ok _ _ _ p s) in H by reflexivity.
  destruct (load_node_cases s p) as [(np & Hp & Hl)|Hl];
    [|rewrite (bind_fault _ _ _ _ Hl) in H; discriminate].
  rewrite (bind_ok _ _ _ _ _ Hl) in H.
  destruct (n_east np) as [first|] eqn:He.
  - apply walk_ok_inv in H as (-> & rs & Hc & ->).
    exists p, np, rs. rewrite He. repeat split; try assumption.
    inversion Hc; subst. destruct (last _) eqn:E; [reflexivity|].
    by apply last_None in E.
  - injection H as <- <-. exists p, np, []. rewrite He.
    repeat split; [assumption | constructor].
Qed.

(** The loop runs out of rounds only on a chain that never ends. *)
Lemma find_last_linear_diverges s p np :
  heap s !! p = Some (CNode np) ->
  find_last_linear (Some p) s = Diverge ->
  forall rs, ~ chain (heap s) (n_east np) rs.
Proof.
  intros Hp Hd rs Hc.
  rewrite (find_last_linear_run _ _ _ _ Hp Hc) in Hd. discriminate.
Qed.

(** ** [create_leaf], case by case *)

Lemma attach_length h p r a : length (attach h p r a) = length h.
Proof.
  unfold attach. destruct r as [t|].
  - destruct (h !! t) as [[]|]; by rewrite ?length_insert.
  - destruct (h !! p) as [[]|]; by rewrite ?length_insert.
Qed.

Lemma u16_nonneg z : 0 <= u16 z.
Proof. unfold u16. apply Z.mod_pos_bound. lia. Qed.

Lemma memset0_fresh_buf c :
  0 <= c ->
  memset0 (Undef (KBuf (Z.to_nat c))) c = Some (CBuf (repeat NUL (Z.to_nat c))).
Proof.
  intros Hc. simpl. rewrite Z2Nat.id by assumption. by rewrite Z.eqb_refl.
Qed.

Lemma strncpy_forged_run lowmem s d old src n bs :
  heap s !! d = Some (CBuf old) -> (n <= length old)%nat ->
  read_str lowmem src n = (bs, true) ->
  strncpy_forged lowmem (Some d) src n s
  = Ok tt (upd s (<[d := CBuf (strncpy old bs n)]> (heap s))).
Proof.
  intros Hd Hn Hr. unfold strncpy_forged.
  rewrite (bind_ok _ _ _ _ _ (load_run _ _ _ Hd)).
  apply Nat.leb_le in Hn. rewrite Hn, Hr. reflexivity.
Qed.

Lemma strncpy_forged_fault lowmem s d old src n bs :
  heap s !! d = Some (CBuf old) -> (n <= length old)%nat ->
  read_str lowmem src n = (bs, false) ->
  strncpy_forged lowmem (Some d) src n s
  = Fault (upd s (<[d := CBuf (bs ++ drop (length bs) old)]> (heap s))).
Proof.
  intros Hd Hn Hr. unfold strncpy_forged.
  rewrite (bind_ok _ _ _ _ _ (load_run _ _ _ Hd)).
  apply Nat.leb_le in Hn. rewrite Hn, Hr. reflexivity.
Qed.

(** What [find_last_linear] found, as the later steps use it. *)
Lemma found_tail s p r s1 :
  find_last_linear (Some p) s = Ok r s1 ->
  s1 = after_find s r
  /\ (exists np, heap s !! p = Some (CNode np) /\ (r = None -> n_east np = None))
  /\ (forall t, r = Some t ->
        exists l, heap s !! t = Some (CLeaf l) /\ l_east l = None).
Proof.
  intros H. apply find_last_linear_ok_inv in H
    as (p' & np & rs & [= <-] & Hp & Hc & -> & ->).
  repeat split.
  - exists np. split; [assumption|]. intros Hnone.
    apply last_None in Hnone. subst rs. by inversion Hc.
  - intros t Ht. eapply chain_last; eassumption.
Qed.

Ltac step_zero_buf :=
  (erewrite bind_ok;
   [| eapply zero_run; [get_tac | apply memset0_fresh_buf, u16_nonneg]]); tidy.

(** The statements of [create_leaf] up to the copy of the key. *)
Ltac leaf_prefix Hfind Ho :=
  let np := fresh "np" in let Hp := fresh "Hp" in let Htail := fresh "Htail" in
  let Hlt := fresh "Hlt" in
  destruct (found_tail _ _ _ _ Hfind) as (-> & (np & Hp & _) & Htail);
  pose proof (lookup_lt_Some _ _ _ Hp) as Hlt;
  unfold create_leaf; cbv zeta;
  (erewrite bind_ok; [| reflexivity]);
  unfold find_last; rewrite (bind_ok _ _ _ _ _ Hfind);
  match goal with
  | |- context [after_find _ ?r] =>
      destruct r as [?t|]; simpl after_find;
      [ let lt := fresh "lt" in let Ht := fresh "Ht" in
        destruct (Htail _ eq_refl) as (lt & Ht & _);
        pose proof (lookup_lt_Some _ _ _ Ht);
        unfold attach; rewrite Ht
      | unfold attach; rewrite Hp ]
  end;
  (erewrite bind_ok; [| apply malloc_ok; exact Ho]);
  step_refl;
  [ step leaf_set_run | step node_set_run ];
  step_zero;
  step leaf_set_run;
  step leaf_set_run;
  step load_leaf_run;
  step leaf_set_run.

Section Forged_runs.

Variable lowmem : Z -> option byte.

Lemma create_leaf_null key count value s :
  create_leaf lowmem None key count value s = Abort A_leaf_parent s.
Proof. reflexivity. Qed.

Lemma create_leaf_run p key count value s r s1 o data :
  find_last_linear (Some p) s = Ok r s1 ->
  oracle s = true :: true :: o ->
  read_str lowmem (u8 value) (Z.to_nat (u16 count)) = (data, true) ->
  let a := next_block s in
  let n := Z.to_nat (u16 count) in
  exists tr,
    create_leaf lowmem (Some p) key count value s
    = Ok r (mkState
              (attach (heap s) p r a
                 ++ [CLeaf (new_leaf p r key (Some (S a)) (int16 (u16 count)));
                     CBuf (strncpy (repeat NUL n) data n)])
              (errno s1) o (tr ++ trail s))
    /\ In (attach (heap s) p r a ++ [CLeaf zero_leaf]) tr.
Proof.
  intros Hfind Ho Hread a n. subst a n.
  leaf_prefix Hfind Ho.
  all: step_malloc; step leaf_set_run; step load_leaf_run; step_zero_buf;
    step load_leaf_run; step_refl; step load_leaf_run;
    (erewrite bind_ok;
     [| eapply strncpy_forged_run;
        [get_tac | rewrite repeat_length; lia | eassumption]]); tidy;
    step leaf_set_run;
    eexists (_ :: _ :: _ :: _ :: _ :: _ :: _ :: _ :: _ :: _ :: [_]);
    (split; [reflexivity | simpl; tauto]).
Qed.

Lemma create_leaf_no_record p key count value s r s1 :
  find_last_linear (Some p) s = Ok r s1 ->
  hd false (oracle s) = false ->
  create_leaf lowmem (Some p) key count value s
  = Abort A_leaf_new (mkState (heap s) ENOMEM (tl (oracle s)) (trail s)).
Proof.
  intros Hfind Ho.
  destruct (found_tail _ _ _ _ Hfind) as (-> & _).
  unfold create_leaf. cbv zeta.
  (erewrite bind_ok; [| reflexivity]).
  unfold find_last. rewrite (bind_ok _ _ _ _ _ Hfind).
  (erewrite bind_ok; [| apply malloc_fails; by destruct r]).
  by destruct r.
Qed.

Lemma create_leaf_no_buffer p key count value s r s1 o :
  find_last_linear (Some p) s = Ok r s1 ->
  oracle s = true :: o -> hd false o = false ->
  let a := next_block s in
  exists tr,
    create_leaf lowmem (Some p) key count value s
    = Abort A_zero_ptr
        (mkState (attach (heap s) p r a ++ [CLeaf (new_leaf p r key None 0)])
                 ENOMEM (tl o) (tr ++ trail s)).
Proof.
  intros Hfind Ho Ho' a. subst a.
  leaf_prefix Hfind Ho.
  all: (erewrite bind_ok; [| apply malloc_fails; exact Ho']); tidy;
    step leaf_set_run; step load_leaf_run;
    (erewrite bind_abort; [| apply zero_null]);
    eexists (_ :: _ :: _ :: _ :: _ :: _ :: [_]); reflexivity.
Qed.

Lemma create_leaf_bad_read p key count value s r s1 o data :
  find_last_linear (Some p) s = Ok r s1 ->
  oracle s = true :: true :: o ->
  read_str lowmem (u8 value) (Z.to_nat (u16 count)) = (data, false) ->
  let a := next_block s in
  let n := Z.to_nat (u16 count) in
  exists tr,
    create_leaf lowmem (Some p) key count value s
    = Fault (mkState
               (attach (heap s) p r a
                  ++ [CLeaf (new_leaf p r key (Some (S a)) 0);
                      CBuf (data ++ drop (length data) (repeat NUL n))])
               (errno s1) o (tr ++ trail s)).
Proof.
  intros Hfind Ho Hread a n. subst a n.
  leaf_prefix Hfind Ho.
  all: step_malloc; step leaf_set_run; step load_leaf_run; step_zero_buf;
    step load_leaf_run; step_refl; step load_leaf_run;
    (erewrite bind_fault;
     [| eapply strncpy_forged_fault;
        [get_tac | rewrite repeat_length; lia | eassumption]]); tidy;
    eexists (_ :: _ :: _ :: _ :: _ :: _ :: _ :: _ :: _ :: [_]); reflexivity.
Qed.

End Forged_runs.

Section Forged_inversion.

Variable lowmem : Z -> option byte.

(** Neither loop nor lookup of [find_last_linear] stops on an assertion
    once the parent is not [NULL]. *)
Lemma walk_no_abort c fuel a s : aborted_by c (walk fuel a s) = false.
Proof.
  revert a. induction fuel as [|fuel IH]; intros a; simpl walk;
    destruct (load_leaf_cases s a) as [(l & _ & Hl)|Hl];
    try (rewrite (bind_fault _ _ _ _ Hl); reflexivity);
    rewrite (bind_ok _ _ _ _ _ Hl); destruct (l_east l); try reflexivity.
  rewrite (bind_ok _ _ s tt s) by reflexivity. apply IH.
Qed.

Lemma find_last_linear_no_abort c p s :
  aborted_by c (find_last_linear (Some p) s) = false.
Proof.
  unfold find_last_linear. rewrite (bind_ok _ _ _ p s) by reflexivity.
  destruct (load_node_cases s p) as [(np & _ & Hl)|Hl].
  - rewrite (bind_ok _ _ _ _ _ Hl). destruct (n_east np); [|reflexivity].
    apply walk_no_abort.
  - rewrite (bind_fault _ _ _ _ Hl). reflexivity.
Qed.

(** When the search of the tail does not return, neither does [create_leaf]. *)
Lemma create_leaf_search_fails p key count value s :
  is_ok (find_last_linear (Some p) s) = false ->
  create_leaf lowmem (Some p) key count value s
  = match find_last_linear (Some p) s with
    | Ok _ s' => Fault s'
    | Abort c s' => Abort c s'
    | Fault s' => Fault s'
    | Diverge => Diverge
    end.
Proof.
  intros H. unfold create_leaf. cbv zeta.
  (erewrite bind_ok; [| reflexivity]). unfold find_last.
  unfold bind at 1. destruct (find_last_linear (Some p) s); try reflexivity.
  discriminate.
Qed.

Lemma create_leaf_ok_inv parent key count value s r s' :
  create_leaf lowmem parent key count value s = Ok r s' ->
  exists p s1 o data tr,
    parent = Some p
    /\ find_last_linear (Some p) s = Ok r s1
    /\ oracle s = true :: true :: o
    /\ read_str lowmem (u8 value) (Z.to_nat (u16 count)) = (data, true)
    /\ s' = mkState
              (attach (heap s) p r (next_block s)
                 ++ [CLeaf (new_leaf p r key (Some (S (next_block s)))
                              (int16 (u16 count)));
                     CBuf (strncpy (repeat NUL (Z.to_nat (u16 count))) data
                             (Z.to_nat (u16 count)))])
              (errno s1) o (tr ++ trail s)
    /\ In (attach (heap s) p r (next_block s) ++ [CLeaf zero_leaf]) tr.
Proof.
  intros H. destruct parent as [p|]; [|discriminate].
  destruct (find_last_linear (Some p) s) as [r0 s1| | |] eqn:Hfind.
  2-4: rewrite create_leaf_search_fails in H by (rewrite Hfind; reflexivity);
       rewrite Hfind in H; discriminate.
  destruct (hd false (oracle s)) eqn:Hhd.
  2: { rewrite (create_leaf_no_record _ _ _ _ _ _ _ _ Hfind Hhd) in H.
       discriminate. }
  destruct (oracle s) as [|[] o] eqn:Ho; try discriminate.
  destruct (hd false o) eqn:Hhd'.
  2: { destruct (create_leaf_no_buffer lowmem p key count value _ _ _ _ Hfind Ho Hhd')
         as (tr & Hrun). rewrite Hrun in H. discriminate. }
  destruct o as [|[] o]; try discriminate.
  destruct (read_str lowmem (u8 value) (Z.to_nat (u16 count)))
    as [data []] eqn:Hread.
  - destruct (create_leaf_run lowmem p key count value _ _ _ _ _ Hfind Ho Hread)
      as (tr & Hrun & Htr).
    rewrite Hrun in H. injection H as <- <-.
    exists p, s1, o, data, tr. repeat split; assumption || reflexivity.
  - destruct (create_leaf_bad_read lowmem p key count value _ _ _ _ _ Hfind Ho Hread)
      as (tr & Hrun). rewrite Hrun in H. discriminate.
Qed.

End Forged_inversion.

(** ** Appending to a chain *)

(** The chain after the tail [t] has been given the sibling [a]. *)
Lemma chain_snoc h h' q rs t lt a la :
  chain h q rs -> last rs = Some t -> h !! t = Some (CLeaf lt) ->
  h' !! t = Some (CLeaf (with_l_east (Some a) lt)) ->
  (forall x, x ∈ rs -> x <> t -> h' !! x = h !! x) ->
  h' !! a = Some (CLeaf la) -> l_east la = None ->
  chain h' q (rs ++ [a]).
Proof.
  intros Hc Hlast Ht Ht' Hsame Ha Hea.
  induction Hc as [|b l rs Hb Hc IH]; [discriminate|].
  destruct rs as [|c rs].
  - simpl in Hlast. injection Hlast as ->.
    rewrite Hb in Ht. injection Ht as ->.
    simpl. econstructor; [exact Ht'|]. simpl.
    econstructor; [exact Ha|]. rewrite Hea. constructor.
  - rewrite last_cons_cons in Hlast.
    assert (b <> t) as Hne.
    { intros ->. pose proof (chain_NoDup _ _ _ (chain_cons _ _ _ _ Hb Hc)) as Hnd.
      apply NoDup_cons in Hnd as [Hnin _]. apply Hnin.
      by apply last_Some_elem_of. }
    simpl. econstructor.
    + rewrite Hsame; [exact Hb | apply elem_of_cons; auto | exact Hne].
    + apply IH; [assumption|]. intros x Hx. apply Hsame, elem_of_cons. auto.
Qed.

(** The chain of [p] in the heap that [create_leaf] returns in. *)
Lemma attach_chain h p np rs la c :
  h !! p = Some (CNode np) -> chain h (n_east np) rs -> l_east la = None ->
  let a := length h in
  let h' := attach h p (last rs) a ++ [CLeaf la; c] in
  exists np',
    h' !! p = Some (CNode np')
    /\ chain h' (n_east np') (rs ++ [a])
    /\ n_north np' = n_north np /\ n_west np' = n_west np.
Proof.
  intros Hp Hc Hea a h'. pose proof (lookup_lt_Some _ _ _ Hp) as Hlt.
  assert (Hnew : h' !! a = Some (CLeaf la)).
  { subst h'. apply heap_get_new0. by rewrite attach_length. }
  destruct (last rs) as [t|] eqn:Hlast.
  - destruct (chain_last _ _ _ _ Hc Hlast) as (lt & Ht & _).
    pose proof (lookup_lt_Some _ _ _ Ht) as Hlt'.
    assert (p <> t) by congruence.
    subst h'. unfold attach in *. rewrite Ht in *.
    exists np. repeat split.
    + rewrite heap_get_old by (by rewrite length_insert).
      by rewrite list_lookup_insert_ne.
    + eapply chain_snoc; try eassumption.
      * rewrite heap_get_old by (by rewrite length_insert).
        by rewrite list_lookup_insert_eq.
      * intros x Hx Hne. destruct (chain_member_leaf _ _ _ _ Hc Hx) as [lx Hlx].
        apply lookup_lt_Some in Hlx.
        rewrite heap_get_old by (by rewrite length_insert).
        rewrite list_lookup_insert_ne by congruence. reflexivity.
  - apply last_None in Hlast. subst rs. inversion Hc as [Hnone|].
    subst h'. unfold attach in *. rewrite Hp in *.
    exists (with_n_east (Some a) np). repeat split.
    + rewrite heap_get_old by (by rewrite length_insert).
      by rewrite list_lookup_insert_eq.
    + simpl. econstructor; [exact Hnew|]. rewrite Hea. constructor.
Qed.

(** A record that was there keeps everything but, for the tail, its
    sibling link. *)
Lemma attach_leaf h p r a x l :
  h !! x = Some (CLeaf l) ->
  exists l', attach h p r a !! x = Some (CLeaf l')
             /\ l_key l' = l_key l /\ l_west l' = l_west l
             /\ l_value l' = l_value l /\ l_size l' = l_size l
             /\ l_tag l' = l_tag l.
Proof.
  intros Hx. pose proof (lookup_lt_Some _ _ _ Hx) as Hlt.
  unfold attach. destruct r as [t|].
  - destruct (decide (t = x)) as [->|Hne].
    + rewrite Hx, list_lookup_insert_eq by assumption. eauto 10.
    + destruct (h !! t) as [[]|]; rewrite ?list_lookup_insert_ne by assumption;
        eauto 10.
  - destruct (h !! p) as [[| n | |]|] eqn:Hp; eauto 10.
    assert (p <> x) by congruence.
    rewrite list_lookup_insert_ne by assumption. eauto 10.
Qed.

(** ** Reading the results *)

Lemma node_at_Some h a n : node_at h a = Some n <-> h !! a = Some (CNode n).
Proof.
  unfold node_at. destruct (h !! a) as [[]|]; split; intros H;
    try discriminate; congruence.
Qed.

Lemma leaf_at_Some h a l : leaf_at h a = Some l <-> h !! a = Some (CLeaf l).
Proof.
  unfold leaf_at. destruct (h !! a) as [[]|]; split; intros H;
    try discriminate; congruence.
Qed.

Lemma heaps_during_app s s' tr :
  trail s' = tr ++ trail s -> heaps_during s s' = tr.
Proof.
  intros H. unfold heaps_during. rewrite H, length_app.
  replace (length tr + length (trail s) - length (trail s))%nat
    with (length tr) by lia.
  apply take_app_length.
Qed.

(** ** [create_node]: the links of the new container *)

(** C7: after a successful [create_node (Some p) path], the parent link of
    the result is [p], the child link of [p] is the result, and the child
    link and chain head of the result are empty; a second call on the same
    parent overwrites the child link of [p], which then is the second result
    and no longer the first. *)
Theorem create_node_links s p np path a s' :
  node_at (heap s) p = Some np ->
  create_node (Some p) path s = Ok (Some a) s' ->
  (exists n, node_at (heap s') a = Some n
             /\ n_north n = Some p /\ n_west n = None /\ n_east n = None)
  /\ (exists np', node_at (heap s') p = Some np' /\ n_west np' = Some a)
  /\ (forall path2 b s'',
        create_node (Some p) path2 s' = Ok (Some b) s'' ->
        b <> a
        /\ exists np'', node_at (heap s'') p = Some np''
                        /\ n_west np'' = Some b /\ n_west np'' <> Some a).
Proof.
  intros Hn H. apply node_at_Some in Hn.
  pose proof (lookup_lt_Some _ _ _ Hn) as Hlt.
  destruct (create_node_ok_inv _ _ _ _ _ _ Hn H) as (o & tr & Ho & -> & -> & _).
  match type of H with _ = Ok _ ?st => set (s1 := st) in * end.
  assert (Hp' : heap s1 !! p
                = Some (CNode (with_n_west (Some (next_block s)) np))).
  { subst s1. cbn [heap]. rewrite heap_get_old by side.
    by apply list_lookup_insert_eq. }
  split; [|split].
  - exists (new_node p path). split; [|by repeat split].
    apply node_at_Some. subst s1. apply heap_get_new0. side.
  - eexists. split; [apply node_at_Some; exact Hp' | reflexivity].
  - intros path2 b s'' H2.
    destruct (create_node_ok_inv _ _ _ _ _ _ Hp' H2) as (o2 & tr2 & _ & -> & -> & _).
    assert (next_block s1 <> next_block s) as Hne.
    { subst s1. unfold next_block. cbn [heap].
      rewrite length_app, length_insert. simpl. lia. }
    split; [exact Hne|]. cbn [heap].
    eexists. split; [|split].
    + pose proof (lookup_lt_Some _ _ _ Hp') as Hlt1.
      apply node_at_Some. rewrite heap_get_old by (by rewrite length_insert).
      by apply list_lookup_insert_eq.
    + reflexivity.
    + cbn [n_west with_n_west]. congruence.
Qed.

(** ** [find_last_linear]: the tail of the chain *)

(** C9: on a container whose chain of records is finite and ends with an
    empty sibling link, [find_last_linear] returns [NULL] when the chain
    head is empty and otherwise the last record of the chain, which is the
    only record of the chain whose sibling link is empty. *)
Theorem find_last_linear_returns_tail s p np rs :
  node_at (heap s) p = Some np ->
  chain (heap s) (n_east np) rs ->
  exists s',
    find_last_linear (Some p) s = Ok (last rs) s'
    /\ heap s' = heap s
    /\ (n_east np = None -> last rs = None)
    /\ (forall rn, last rs = Some rn ->
          rn ∈ rs
          /\ (exists l, leaf_at (heap s) rn = Some l /\ l_east l = None)
          /\ (forall a l, a ∈ rs -> leaf_at (heap s) a = Some l ->
                          l_east l = None -> a = rn)).
Proof.
  intros Hn Hc. apply node_at_Some in Hn.
  exists (after_find s (last rs)). split; [|split; [|split]].
  - by apply find_last_linear_run with np.
  - by destruct (last rs).
  - intros He. rewrite He in Hc. by inversion Hc.
  - intros rn Hlast. split; [by apply last_Some_elem_of|]. split.
    + destruct (chain_last _ _ _ _ Hc Hlast) as (l & Hl & He).
      exists l. split; [by apply leaf_at_Some | assumption].
    + intros a l Ha Hl He. apply leaf_at_Some in Hl.
      pose proof (chain_no_sibling_last _ _ _ _ _ Hc Ha Hl He). congruence.
Qed.

(** ** [create_leaf]: the value returned *)

(** C2: a successful [create_leaf] returns the record that was the tail of
    the chain before the call, [NULL] when the chain was empty; it never
    returns the record it has created. *)
Theorem create_leaf_returns_previous_tail lowmem parent key count value s r s' :
  create_leaf lowmem parent key count value s = Ok r s' ->
  exists p np rs,
    parent = Some p
    /\ node_at (heap s) p = Some np
    /\ chain (heap s) (n_east np) rs
    /\ r = last rs
    /\ (n_east np = None -> r = None)
    /\ r <> Some (next_block s)
    /\ exists l, leaf_at (heap s') (next_block s) = Some l /\ l_tag l = TagLeaf.
Proof.
  intros H.
  apply create_leaf_ok_inv in H
    as (p & s1 & o & data & tr & -> & Hfind & Ho & Hread & -> & _).
  apply find_last_linear_ok_inv in Hfind
    as (p' & np & rs & [= <-] & Hp & Hc & -> & ->).
  exists p, np, rs. repeat split; try assumption.
  - by apply node_at_Some.
  - intros He. rewrite He in Hc. by inversion Hc.
  - intros Hlast. apply last_Some_elem_of in Hlast.
    destruct (chain_member_leaf _ _ _ _ Hc Hlast) as [l Hl].
    apply lookup_lt_Some in Hl. unfold next_block in Hl. lia.
  - eexists. split.
    + apply leaf_at_Some. cbn [heap]. apply heap_get_new0.
      by rewrite attach_length.
    + reflexivity.
Qed.

(** ** [create_leaf]: the chain grows at its end *)

Lemma create_leaf_appends lowmem p np rs key count value s r s' :
  heap s !! p = Some (CNode np) ->
  chain (heap s) (n_east np) rs ->
  create_leaf lowmem (Some p) key count value s = Ok r s' ->
  r = last rs
  /\ (exists np', heap s' !! p = Some (CNode np')
                  /\ chain (heap s') (n_east np') (rs ++ [next_block s]))
  /\ (exists l, heap s' !! next_block s = Some (CLeaf l)
                /\ l_key l = strncpy (repeat NUL KEY_CAP) key 127)
  /\ (forall x l, heap s !! x = Some (CLeaf l) ->
        exists l', heap s' !! x = Some (CLeaf l') /\ l_key l' = l_key l).
Proof.
  intros Hp Hc H.
  apply create_leaf_ok_inv in H
    as (p' & s1 & o & data & tr & [= <-] & Hfind & Ho & Hread & -> & _).
  apply find_last_linear_ok_inv in Hfind
    as (p' & np0 & rs0 & [= <-] & Hp0 & Hc0 & -> & _).
  rewrite Hp in Hp0. injection Hp0 as <-.
  rewrite (chain_functional _ _ _ _ Hc0 Hc). cbn [heap].
  split; [reflexivity|]. split; [|split].
  - edestruct (attach_chain (heap s) p np rs) as (np' & Hp' & Hc' & _);
      [exact Hp | exact Hc | | eauto]. reflexivity.
  - eexists. split.
    + apply heap_get_new0. by rewrite attach_length.
    + reflexivity.
  - intros x l Hx.
    destruct (attach_leaf (heap s) p (last rs) (next_block s) x l Hx)
      as (l' & Hl' & Hk & _).
    exists l'. split; [|assumption].
    rewrite heap_get_old; [assumption|].
    rewrite attach_length. by apply lookup_lt_Some in Hx.
Qed.

(** C8: three successful calls of [create_leaf] on a container whose chain
    is empty create the records [r1], [r2], [r3] (the blocks allocated by
    the first, second and third call, holding the three keys); afterwards
    the chain head of the container is [r1], the sibling link of [r1] is
    [r2], that of [r2] is [r3] and that of [r3] is empty. *)
Theorem three_appends_chain lowmem p np s0
    key1 count1 value1 x1 s1 key2 count2 value2 x2 s2 key3 count3 value3 x3 s3 :
  node_at (heap s0) p = Some np -> n_east np = None ->
  create_leaf lowmem (Some p) key1 count1 value1 s0 = Ok x1 s1 ->
  create_leaf lowmem (Some p) key2 count2 value2 s1 = Ok x2 s2 ->
  create_leaf lowmem (Some p) key3 count3 value3 s2 = Ok x3 s3 ->
  let r1 := next_block s0 in
  let r2 := next_block s1 in
  let r3 := next_block s2 in
  (exists np3, node_at (heap s3) p = Some np3 /\ n_east np3 = Some r1)
  /\ (exists l1 l2 l3,
        leaf_at (heap s3) r1 = Some l1 /\ l_east l1 = Some r2
        /\ leaf_at (heap s3) r2 = Some l2 /\ l_east l2 = Some r3
        /\ leaf_at (heap s3) r3 = Some l3 /\ l_east l3 = None
        /\ l_key l1 = strncpy (repeat NUL KEY_CAP) key1 127
        /\ l_key l2 = strncpy (repeat NUL KEY_CAP) key2 127
        /\ l_key l3 = strncpy (repeat NUL KEY_CAP) key3 127)
  /\ x1 = None /\ x2 = Some r1 /\ x3 = Some r2.
Proof.
  intros Hn He H1 H2 H3 r1 r2 r3. apply node_at_Some in Hn.
  assert (Hc0 : chain (heap s0) (n_east np) []) by (rewrite He; constructor).
  destruct (create_leaf_appends _ _ _ _ _ _ _ _ _ _ Hn Hc0 H1)
    as (Hx1 & (np1 & Hp1 & Hc1) & (a1 & Ha1 & Hk1) & _).
  destruct (create_leaf_appends _ _ _ _ _ _ _ _ _ _ Hp1 Hc1 H2)
    as (Hx2 & (np2 & Hp2 & Hc2) & (a2 & Ha2 & Hk2) & Hkeep2).
  destruct (create_leaf_appends _ _ _ _ _ _ _ _ _ _ Hp2 Hc2 H3)
    as (Hx3 & (np3 & Hp3 & Hc3) & (a3 & Ha3 & Hk3) & Hkeep3).
  simpl app in Hc3. fold r1 r2 r3 in Hc3, Ha1, Ha2, Ha3.
  inversion Hc3 as [|? l1 ? Hl1 Hc3' Hhead]; subst.
  inversion Hc3' as [|? l2 ? Hl2 Hc3'' Hl1e]; subst.
  inversion Hc3'' as [|? l3 ? Hl3 Hc3''' Hl2e]; subst.
  inversion Hc3''' as [Hl3e|].
  split; [|split; [|by repeat split]].
  - exists np3. split; [by apply node_at_Some | congruence].
  - exists l1, l2, l3. rewrite !leaf_at_Some.
    repeat split; try assumption; try congruence.
    + destruct (Hkeep2 _ _ Ha1) as (b1 & Hb1 & Hkb1).
      destruct (Hkeep3 _ _ Hb1) as (c1 & Hc1' & Hkc1).
      rewrite Hl1 in Hc1'. injection Hc1' as <-. congruence.
    + destruct (Hkeep3 _ _ Ha2) as (b2 & Hb2 & Hkb2).
      rewrite Hl2 in Hb2. injection Hb2 as <-. congruence.
Qed.

(** ** The stored strings *)

Lemma cstr_take_app m src r : cstr (take m (cstr src) ++ NUL :: r) = take m (cstr src).
Proof.
  revert m. induction src as [|b src IH]; intros m.
  - by destruct m.
  - simpl cstr at 2 3. destruct (Byte.eqb b NUL) eqn:Eb.
    + by destruct m.
    + destruct m as [|m]; [reflexivity|].
      simpl. rewrite Eb. f_equal. apply IH.
Qed.

Lemma snprintf_s_shape dst m src :
  snprintf_s dst (S m) src
  = take m (cstr src) ++ NUL :: drop (S (length (take m (cstr src)))) dst.
Proof. reflexivity. Qed.

Lemma strncpy_fresh_key key :
  strncpy (repeat NUL KEY_CAP) key 127
  = take 127 (cstr key) ++ NUL :: repeat NUL (127 - length (take 127 (cstr key))).
Proof.
  unfold strncpy. f_equal.
  change (drop 127 (repeat NUL KEY_CAP)) with [NUL].
  by rewrite <- repeat_cons.
Qed.

Lemma terminated_shape n c r :
  (length c <= n)%nat -> cstr (c ++ NUL :: r) = c ->
  terminated_within n (c ++ NUL :: r).
Proof.
  intros Hlen Hc. unfold terminated_within. rewrite Hc.
  split; [assumption|]. by apply list_lookup_middle.
Qed.

Lemma stored_path path :
  let buf := n_path (new_node 0 path) in
  length buf = PATH_CAP /\ terminated_within 255 buf
  /\ cstr buf = take 255 (cstr path).
Proof.
  cbn [n_path new_node]. unfold PATH_CAP at 2.
  rewrite snprintf_s_shape.
  pose proof (length_take (cstr path) 255) as Hlen.
  split; [|split].
  - rewrite length_app. cbn [length]. rewrite length_drop, repeat_length.
    unfold PATH_CAP. lia.
  - apply terminated_shape; [lia | apply cstr_take_app].
  - apply cstr_take_app.
Qed.

Lemma stored_key key :
  let buf := strncpy (repeat NUL KEY_CAP) key 127 in
  length buf = KEY_CAP /\ terminated_within 127 buf
  /\ cstr buf = take 127 (cstr key).
Proof.
  cbv zeta. rewrite strncpy_fresh_key.
  pose proof (length_take (cstr key) 127) as Hlen.
  split; [|split].
  - rewrite length_app. cbn [length]. rewrite repeat_length.
    unfold KEY_CAP. lia.
  - apply terminated_shape; [lia | apply cstr_take_app].
  - apply cstr_take_app.
Qed.

(** C6: after a successful [create_node] or [create_leaf], whatever the
    length of the path or key given, the stored path holds a NUL-terminated
    string of at most 255 bytes and the stored key one of at most 127 bytes:
    the string given, cut at that length.  A longer input is not refused:
    the call succeeds with any other path or key as well. *)
Theorem stored_strings_terminated lowmem :
  (forall s p np path a s',
      node_at (heap s) p = Some np ->
      create_node (Some p) path s = Ok (Some a) s' ->
      (exists n, node_at (heap s') a = Some n
                 /\ length (n_path n) = PATH_CAP
                 /\ terminated_within 255 (n_path n)
                 /\ cstr (n_path n) = take 255 (cstr path))
      /\ forall path', returned_block (create_node (Some p) path' s) = true)
  /\ (forall s parent key count value r s',
        create_leaf lowmem parent key count value s = Ok r s' ->
        (exists l, leaf_at (heap s') (next_block s) = Some l
                   /\ length (l_key l) = KEY_CAP
                   /\ terminated_within 127 (l_key l)
                   /\ cstr (l_key l) = take 127 (cstr key))
        /\ forall key', is_ok (create_leaf lowmem parent key' count value s) = true).
Proof.
  split.
  - intros s p np path a s' Hn H. apply node_at_Some in Hn.
    destruct (create_node_ok_inv _ _ _ _ _ _ Hn H) as (o & tr & Ho & -> & -> & _).
    split.
    + exists (new_node p path). split.
      * apply node_at_Some. cbn [heap]. apply heap_get_new0. side.
      * apply (stored_path path).
    + intros path'.
      destruct (create_node_run p np path' s o Hn Ho) as (tr' & -> & _).
      reflexivity.
  - intros s parent key count value r s' H.
    apply create_leaf_ok_inv in H
      as (p & s1 & o & data & tr & -> & Hfind & Ho & Hread & -> & _).
    split.
    + eexists. split.
      * apply leaf_at_Some. cbn [heap]. apply heap_get_new0.
        by rewrite attach_length.
      * apply (stored_key key).
    + intros key'.
      destruct (create_leaf_run lowmem p key' count value _ _ _ _ _ Hfind Ho Hread)
        as (tr' & -> & _).
      reflexivity.
Qed.

(** ** The order of link and tag *)

Lemma links_to_west h q a n :
  h !! q = Some (CNode n) -> n_west n = Some a -> links_to h q a = true.
Proof.
  intros Hq Hw. unfold links_to. rewrite Hq.
  by rewrite (bool_decide_eq_true_2 _ Hw).
Qed.

Lemma links_to_head h q a n :
  h !! q = Some (CNode n) -> n_east n = Some a -> links_to h q a = true.
Proof.
  intros Hq He. unfold links_to. rewrite Hq.
  rewrite (bool_decide_eq_true_2 _ He). apply orb_true_r.
Qed.

Lemma links_to_sibling h q a l :
  h !! q = Some (CLeaf l) -> l_east l = Some a -> links_to h q a = true.
Proof.
  intros Hq He. unfold links_to. rewrite Hq.
  by rewrite (bool_decide_eq_true_2 _ He).
Qed.

Lemma linked_untagged_intro old a t h q :
  (q < old)%nat -> links_to h q a = true -> has_tag h a t = false ->
  linked_untagged old a t h = true.
Proof.
  intros Hq Hl Ht. unfold linked_untagged. rewrite Ht.
  apply andb_true_iff. split; [|reflexivity].
  apply existsb_exists. exists q. split; [|assumption].
  apply in_seq. lia.
Qed.

(** After the link of [create_leaf], an old block points at the new one. *)
Lemma attach_links s p r s1 rest :
  find_last_linear (Some p) s = Ok r s1 ->
  exists q, (q < length (heap s))%nat
            /\ links_to (attach (heap s) p r (next_block s) ++ rest) q
                 (next_block s) = true.
Proof.
  intros Hfind.
  destruct (found_tail _ _ _ _ Hfind) as (_ & (np & Hp & _) & Htail).
  pose proof (lookup_lt_Some _ _ _ Hp) as Hlt.
  unfold attach. destruct r as [t|].
  - destruct (Htail t eq_refl) as (lt & Ht & _).
    pose proof (lookup_lt_Some _ _ _ Ht) as Hlt'.
    rewrite Ht. exists t. split; [assumption|].
    eapply links_to_sibling;
      [rewrite heap_get_old by (by rewrite length_insert);
       by apply list_lookup_insert_eq | reflexivity].
  - rewrite Hp. exists p. split; [assumption|].
    eapply links_to_head;
      [rewrite heap_get_old by (by rewrite length_insert);
       by apply list_lookup_insert_eq | reflexivity].
Qed.

(** C3, as the code has it: in [create_node] and [create_leaf] the link
    from the entity that was reachable before (the child link of the parent,
    the chain head of the container or the sibling link of the previous
    tail) is written first and the tag of the new entity afterwards, so that
    during the call the new entity is linked while untagged; when a
    successful call returns, the new entity carries its tag. *)
Theorem tag_assigned_after_link lowmem :
  (forall s p np path a s',
      node_at (heap s) p = Some np ->
      create_node (Some p) path s = Ok (Some a) s' ->
      has_tag (heap s') a TagNode = true
      /\ exists h, In h (heaps_during s s')
                   /\ linked_untagged (length (heap s)) a TagNode h = true)
  /\ (forall s parent key count value r s',
        create_leaf lowmem parent key count value s = Ok r s' ->
        has_tag (heap s') (next_block s) TagLeaf = true
        /\ exists h, In h (heaps_during s s')
                     /\ linked_untagged (length (heap s)) (next_block s) TagLeaf h
                        = true).
Proof.
  split.
  - intros s p np path a s' Hn H. apply node_at_Some in Hn.
    pose proof (lookup_lt_Some _ _ _ Hn) as Hlt.
    destruct (create_node_ok_inv _ _ _ _ _ _ Hn H) as (o & tr & Ho & -> & -> & Htr).
    split.
    + unfold has_tag. cbn [heap]. by rewrite heap_get_new0 by side.
    + eexists. split.
      * erewrite heaps_during_app by reflexivity. exact Htr.
      * apply linked_untagged_intro with p; [assumption| |].
        -- eapply links_to_west;
             [rewrite heap_get_old by side; by apply list_lookup_insert_eq
             | reflexivity].
        -- unfold has_tag. by rewrite heap_get_new0 by side.
  - intros s parent key count value r s' H.
    apply create_leaf_ok_inv in H
      as (p & s1 & o & data & tr & -> & Hfind & Ho & Hread & -> & Htr).
    split.
    + unfold has_tag. cbn [heap].
      by rewrite heap_get_new0 by (by rewrite attach_length).
    + eexists. split.
      * erewrite heaps_during_app by reflexivity. exact Htr.
      * destruct (attach_links s p r s1 [CLeaf zero_leaf] Hfind) as (q & Hq & Hl).
        apply linked_untagged_intro with q; [assumption | assumption |].
        unfold has_tag. by rewrite heap_get_new0 by (by rewrite attach_length).
Qed.

(** C3 as stated fails: in this call of [create_node] on the root, the new
    container is the child of the root before it is tagged. *)
Lemma create_node_linked_before_tagged :
  exists s',
    create_node (Some 0%nat) k1 (init_state [true]) = Ok (Some 1%nat) s'
    /\ ~ tagged_when_linked (init_state [true]) s' 1 TagNode.
Proof.
  eexists. split; [vm_compute; reflexivity|].
  intros H.
  specialize (H [CNode (with_n_west (Some 1%nat) root); CNode zero_node]).
  assert (Hin : In [CNode (with_n_west (Some 1%nat) root); CNode zero_node]
                   (heaps_during (init_state [true])
                      (final_state (create_node (Some 0%nat) k1 (init_state [true]))))).
  { vm_compute. tauto. }
  specialize (H Hin). vm_compute in H. discriminate.
Qed.

(** ** Failed allocations *)

(** C4, as the code has it: when its allocation fails, [create_node]
    returns [NULL] and leaves the heap as it was.  [create_leaf] does not
    return then: a failed allocation of the record stops the program at
    [assert(new_leaf)], a failed allocation of the value buffer at the
    assertion of [zero]. *)
Theorem allocation_failure_outcomes lowmem :
  (forall s p path,
      hd false (oracle s) = false ->
      exists s', create_node (Some p) path s = Ok None s' /\ heap s' = heap s)
  /\ (forall s p key count value r s1,
        find_last_linear (Some p) s = Ok r s1 ->
        hd false (oracle s) = false ->
        exists s', create_leaf lowmem (Some p) key count value s
                   = Abort A_leaf_new s' /\ heap s' = heap s)
  /\ (forall s p key count value r s1 o,
        find_last_linear (Some p) s = Ok r s1 ->
        oracle s = true :: o -> hd false o = false ->
        exists s', create_leaf lowmem (Some p) key count value s
                   = Abort A_zero_ptr s').
Proof.
  split; [|split].
  - intros s p path Ho. eexists. split; [by apply create_node_no_memory|].
    reflexivity.
  - intros s p key count value r s1 Hfind Ho. eexists.
    split; [by eapply create_leaf_no_record|]. reflexivity.
  - intros s p key count value r s1 o Hfind Ho Ho'.
    destruct (create_leaf_no_buffer lowmem p key count value _ _ _ _ Hfind Ho Ho')
      as (tr & Hrun). eauto.
Qed.

(** C4 as stated fails: with no memory for the record, [create_leaf] on the
    root stops at its assertion and returns nothing. *)
Lemma create_leaf_no_memory_aborts :
  hd false (oracle (init_state [false])) = false
  /\ create_leaf unmapped (Some 0%nat) k1 3 1 (init_state [false])
     = Abort A_leaf_new (mkState [CNode root] ENOMEM [] [])
  /\ reports_empty (create_leaf unmapped (Some 0%nat) k1 3 1 (init_state [false]))
     = false.
Proof. repeat split. Qed.

(** ** All or nothing *)

(** C5, as the code has it: on a parent that is a container, [create_node]
    either returns [NULL] with the heap as it was, when the allocation
    fails, or returns the new container fully built and linked.
    [create_leaf] leaves the heap as it was when the allocation of the
    record fails, and every call that returns has built the record whole
    (links, tag, key, value buffer, length) and linked it. *)
Theorem all_or_nothing lowmem :
  (forall s p np path,
      node_at (heap s) p = Some np ->
      (hd false (oracle s) = false ->
       exists s', create_node (Some p) path s = Ok None s' /\ heap s' = heap s)
      /\ (hd false (oracle s) = true ->
          exists s', create_node (Some p) path s = Ok (Some (next_block s)) s'
                     /\ heap s' = <[p := CNode (with_n_west (Some (next_block s)) np)]>
                                    (heap s)
                                  ++ [CNode (new_node p path)]))
  /\ (forall s p key count value r s1,
        find_last_linear (Some p) s = Ok r s1 ->
        hd false (oracle s) = false ->
        exists s', create_leaf lowmem (Some p) key count value s
                   = Abort A_leaf_new s' /\ heap s' = heap s)
  /\ (forall s parent key count value r s',
        create_leaf lowmem parent key count value s = Ok r s' ->
        exists p data,
          parent = Some p
          /\ read_str lowmem (u8 value) (Z.to_nat (u16 count)) = (data, true)
          /\ heap s'
             = attach (heap s) p r (next_block s)
               ++ [CLeaf (new_leaf p r key (Some (S (next_block s)))
                            (int16 (u16 count)));
                   CBuf (strncpy (repeat NUL (Z.to_nat (u16 count))) data
                           (Z.to_nat (u16 count)))]).
Proof.
  split; [|split].
  - intros s p np path Hn. apply node_at_Some in Hn. split.
    + intros Ho. eexists. split; [by apply create_node_no_memory|]. reflexivity.
    + intros Ho. destruct (oracle s) as [|[] o] eqn:Eo; try discriminate.
      destruct (create_node_run p np path s o Hn Eo) as (tr & Hrun & _).
      eexists. split; [exact Hrun | reflexivity].
  - intros s p key count value r s1 Hfind Ho. eexists.
    split; [by eapply create_leaf_no_record|]. reflexivity.
  - intros s parent key count value r s' H.
    apply create_leaf_ok_inv in H
      as (p & s1 & o & data & tr & -> & Hfind & Ho & Hread & -> & _).
    exists p, data. repeat split. assumption.
Qed.

(** C5 as stated fails: when there is memory for the record and none for
    the value buffer, the call stops with the record hanging at the head of
    the chain, without a value buffer and with the length 0. *)
Lemma create_leaf_stops_half_built :
  exists s',
    create_leaf unmapped (Some 0%nat) k1 3 1 (init_state [true; false])
    = Abort A_zero_ptr s'
    /\ heap s' <> heap (init_state [true; false])
    /\ node_at (heap s') 0 = Some (with_n_east (Some 1%nat) root)
    /\ leaf_at (heap s') 1 = Some (new_leaf 0 None k1 None 0).
Proof.
  eexists. split; [vm_compute; reflexivity|].
  split; [discriminate|]. split; reflexivity.
Qed.

(** ** The check of the value buffer *)

(** C10: in [create_leaf] the value buffer goes through [zero] before its
    own check: no call ever stops at [assert(new_leaf->value)], and when the
    allocation of the value buffer fails, the call stops at the assertion of
    [zero]. *)
Theorem value_buffer_check_is_dead lowmem parent key count value s :
  aborted_by A_leaf_value (create_leaf lowmem parent key count value s) = false
  /\ (forall p r s1 o,
        parent = Some p ->
        find_last_linear (Some p) s = Ok r s1 ->
        oracle s = true :: o -> hd false o = false ->
        aborted_by A_zero_ptr (create_leaf lowmem parent key count value s) = true).
Proof.
  split.
  - destruct parent as [p|]; [|reflexivity].
    destruct (find_last_linear (Some p) s) as [r s1| | |] eqn:Hfind.
    2-4: rewrite create_leaf_search_fails by (rewrite Hfind; reflexivity);
         pose proof (find_last_linear_no_abort A_leaf_value p s) as Hno;
         rewrite Hfind in *; assumption || reflexivity.
    destruct (hd false (oracle s)) eqn:Hhd.
    2: { by rewrite (create_leaf_no_record _ _ _ _ _ _ _ _ Hfind Hhd). }
    destruct (oracle s) as [|[] o] eqn:Ho; try discriminate.
    destruct (hd false o) eqn:Hhd'.
    2: { destruct (create_leaf_no_buffer lowmem p key count value _ _ _ _ Hfind Ho Hhd')
           as (tr & ->). reflexivity. }
    destruct o as [|[] o]; try discriminate.
    destruct (read_str lowmem (u8 value) (Z.to_nat (u16 count)))
      as [data []] eqn:Hread.
    + destruct (create_leaf_run lowmem p key count value _ _ _ _ _ Hfind Ho Hread)
        as (tr & -> & _). reflexivity.
    + destruct (create_leaf_bad_read lowmem p key count value _ _ _ _ _ Hfind Ho Hread)
        as (tr & ->). reflexivity.
  - intros p r s1 o -> Hfind Ho Ho'.
    destruct (create_leaf_no_buffer lowmem p key count value _ _ _ _ Hfind Ho Ho')
      as (tr & ->). reflexivity.
Qed.

(** ** The value *)

Lemma read_unmapped src n : n <> 0%nat -> read_str unmapped src n = ([], false).
Proof. destruct n; [congruence | reflexivity]. Qed.

Lemma create_leaf_unmapped_never_returns parent key count value s :
  Z.to_nat (u16 count) <> 0%nat ->
  is_ok (create_leaf unmapped parent key count value s) = false.
Proof.
  intros Hn. destruct parent as [p|]; [|reflexivity].
  destruct (create_leaf unmapped (Some p) key count value s) as [r s'| | |] eqn:H;
    try reflexivity.
  apply create_leaf_ok_inv in H
    as (p' & s1 & o & data & tr & _ & _ & _ & Hread & _).
  rewrite read_unmapped in Hread by assumption. discriminate.
Qed.

(** The calls of [main]: [create_node(rootNodeAddress, root.node.path)],
    then [create_leaf(newNode, "sample_key", 10, 200)], which reads 10 bytes
    at the address 200. *)
Example main_create_leaf_stops :
  exists s1 s2,
    create_node (Some 0%nat) (n_path root) (init_state [true; true; true])
    = Ok (Some 1%nat) s1
    /\ create_leaf unmapped (Some 1%nat) sample_key 10 200 s1 = Fault s2.
Proof. do 2 eexists. split; vm_compute; reflexivity. Qed.

(** C1, at its input: [create_leaf] takes the value as one
    byte and reads its 3 bytes through the pointer made from that byte.
    Where nothing is readable there, the call on the root with the key "k1",
    the length 3 and the value byte 1 stops on the invalid read: the key is
    stored, but the length field is still 0 and the value buffer holds three
    zero bytes; and no call with the length 3 returns at all. *)
Theorem create_leaf_k1_reads_through_value_byte :
  (exists s',
      create_leaf unmapped (Some 0%nat) k1 3 1 (init_state [true; true]) = Fault s'
      /\ leaf_at (heap s') 1 = Some (new_leaf 0 None k1 (Some 2%nat) 0)
      /\ cstr (l_key (new_leaf 0 None k1 (Some 2%nat) 0)) = k1
      /\ buf_at (heap s') (Some 2%nat) = Some [NUL; NUL; NUL])
  /\ (forall parent key value s,
        is_ok (create_leaf unmapped parent key 3 value s) = false).
Proof.
  split.
  - eexists. split; [vm_compute; reflexivity|]. repeat split.
  - intros parent key value s. by apply create_leaf_unmapped_never_returns.
Qed.

(** ** The theorems at sample inputs *)

Lemma is_chain_sound h q rs : is_chain h q rs = true -> chain h q rs.
Proof.
  revert q. induction rs as [|a rs IH]; intros [a'|] H; simpl in H;
    try discriminate; [constructor|].
  apply andb_true_iff in H as [Ha H]. apply Nat.eqb_eq in Ha as <-.
  destruct (h !! a) as [[| |l|]|] eqn:E; try discriminate.
  econstructor; eauto.
Defined.

Lemma create_node_links_witness :
  node_at (heap (init_state [true; true])) 0 = Some root
  /\ create_node (Some 0%nat) k1 (init_state [true; true])
     = Ok (Some 1%nat) one_container
  /\ (exists n, node_at (heap one_container) 1 = Some n
                /\ n_north n = Some 0%nat /\ n_west n = None /\ n_east n = None)
  /\ (exists np', node_at (heap one_container) 0 = Some np'
                  /\ n_west np' = Some 1%nat).
Proof.
  assert (H1 : node_at (heap (init_state [true; true])) 0 = Some root)
    by reflexivity.
  assert (H2 : create_node (Some 0%nat) k1 (init_state [true; true])
               = Ok (Some 1%nat) one_container) by (vm_compute; reflexivity).
  destruct (create_node_links _ _ _ _ _ _ H1 H2) as (Ha & Hb & _).
  exact (conj H1 (conj H2 (conj Ha Hb))).
Defined.

Lemma find_last_linear_returns_tail_witness :
  node_at (heap two_records) 0 = Some (with_n_east (Some 1%nat) root)
  /\ chain (heap two_records) (Some 1%nat) [1%nat; 3%nat]
  /\ exists s', find_last_linear (Some 0%nat) two_records = Ok (Some 3%nat) s'
                /\ heap s' = heap two_records.
Proof.
  assert (H1 : node_at (heap two_records) 0
               = Some (with_n_east (Some 1%nat) root))
    by (vm_compute; reflexivity).
  assert (H2 : chain (heap two_records)
                 (n_east (with_n_east (Some 1%nat) root)) [1%nat; 3%nat])
    by (apply is_chain_sound; vm_compute; reflexivity).
  destruct (find_last_linear_returns_tail _ _ _ _ H1 H2) as (s' & Ha & Hb & _).
  exact (conj H1 (conj H2 (ex_intro _ s' (conj Ha Hb)))).
Defined.

Lemma create_leaf_returns_previous_tail_witness :
  create_leaf lowmem_123 (Some 0%nat) k1 3 200 one_record
  = Ok (Some 1%nat) two_records
  /\ exists p np rs,
       Some 0%nat = Some p
       /\ node_at (heap one_record) p = Some np
       /\ chain (heap one_record) (n_east np) rs
       /\ Some 1%nat = last rs
       /\ (n_east np = None -> Some 1%nat = None)
       /\ Some 1%nat <> Some (next_block one_record)
       /\ exists l, leaf_at (heap two_records) (next_block one_record) = Some l
                    /\ l_tag l = TagLeaf.
Proof.
  assert (H : create_leaf lowmem_123 (Some 0%nat) k1 3 200 one_record
              = Ok (Some 1%nat) two_records) by (vm_compute; reflexivity).
  exact (conj H (create_leaf_returns_previous_tail _ _ _ _ _ _ _ _ H)).
Defined.

Lemma three_appends_chain_witness :
  node_at (heap no_records) 0 = Some root
  /\ create_leaf unmapped (Some 0%nat) k1 0 0 no_records = Ok None one_empty
  /\ create_leaf unmapped (Some 0%nat) k1 0 0 one_empty = Ok (Some 1%nat) two_empty
  /\ create_leaf unmapped (Some 0%nat) k1 0 0 two_empty = Ok (Some 3%nat) three_empty
  /\ (exists np3, node_at (heap three_empty) 0 = Some np3
                  /\ n_east np3 = Some (next_block no_records))
  /\ next_block no_records = 1%nat
  /\ next_block one_empty = 3%nat
  /\ next_block two_empty = 5%nat.
Proof.
  assert (H0 : node_at (heap no_records) 0 = Some root) by reflexivity.
  assert (H1 : create_leaf unmapped (Some 0%nat) k1 0 0 no_records
               = Ok None one_empty) by (vm_compute; reflexivity).
  assert (H2 : create_leaf unmapped (Some 0%nat) k1 0 0 one_empty
               = Ok (Some 1%nat) two_empty) by (vm_compute; reflexivity).
  assert (H3 : create_leaf unmapped (Some 0%nat) k1 0 0 two_empty
               = Ok (Some 3%nat) three_empty) by (vm_compute; reflexivity).
  destruct (three_appends_chain unmapped 0 root no_records
              k1 0 0 None one_empty k1 0 0 (Some 1%nat) two_empty
              k1 0 0 (Some 3%nat) three_empty
              H0 eq_refl H1 H2 H3) as (Ha & _).
  assert (N0 : next_block no_records = 1%nat) by (vm_compute; reflexivity).
  assert (N1 : next_block one_empty = 3%nat) by (vm_compute; reflexivity).
  assert (N2 : next_block two_empty = 5%nat) by (vm_compute; reflexivity).
  exact (conj H0 (conj H1 (conj H2 (conj H3 (conj Ha (conj N0 (conj N1 N2))))))).
Defined.

Lemma stored_strings_terminated_witness :
  (node_at (heap (init_state [true])) 0 = Some root
   /\ create_node (Some 0%nat) long_name (init_state [true])
      = Ok (Some 1%nat) long_container
   /\ exists n, node_at (heap long_container) 1 = Some n
                /\ length (n_path n) = PATH_CAP
                /\ terminated_within 255 (n_path n)
                /\ cstr (n_path n) = take 255 (cstr long_name))
  /\ (create_leaf lowmem_123 (Some 0%nat) long_name 3 200 no_records
      = Ok None long_record
      /\ exists l, leaf_at (heap long_record) (next_block no_records) = Some l
                   /\ length (l_key l) = KEY_CAP
                   /\ terminated_within 127 (l_key l)
                   /\ cstr (l_key l) = take 127 (cstr long_name)).
Proof.
  assert (H1 : node_at (heap (init_state [true])) 0 = Some root)
    by reflexivity.
  assert (H2 : create_node (Some 0%nat) long_name (init_state [true])
               = Ok (Some 1%nat) long_container) by (vm_compute; reflexivity).
  assert (H3 : create_leaf lowmem_123 (Some 0%nat) long_name 3 200 no_records
               = Ok None long_record) by (vm_compute; reflexivity).
  destruct (proj1 (stored_strings_terminated lowmem_123) _ _ _ _ _ _ H1 H2)
    as (Ha & _).
  destruct (proj2 (stored_strings_terminated lowmem_123) _ _ _ _ _ _ _ H3)
    as (Hb & _).
  exact (conj (conj H1 (conj H2 Ha)) (conj H3 Hb)).
Defined.

Lemma tag_assigned_after_link_witness :
  (node_at (heap (init_state [true; true])) 0 = Some root
   /\ create_node (Some 0%nat) k1 (init_state [true; true])
      = Ok (Some 1%nat) one_container
   /\ has_tag (heap one_container) 1 TagNode = true)
  /\ (create_leaf lowmem_123 (Some 0%nat) k1 3 200 one_record
      = Ok (Some 1%nat) two_records
      /\ has_tag (heap two_records) (next_block one_record) TagLeaf = true).
Proof.
  assert (H1 : node_at (heap (init_state [true; true])) 0 = Some root)
    by reflexivity.
  assert (H2 : create_node (Some 0%nat) k1 (init_state [true; true])
               = Ok (Some 1%nat) one_container) by (vm_compute; reflexivity).
  assert (H3 : create_leaf lowmem_123 (Some 0%nat) k1 3 200 one_record
               = Ok (Some 1%nat) two_records) by (vm_compute; reflexivity).
  destruct (proj1 (tag_assigned_after_link lowmem_123) _ _ _ _ _ _ H1 H2)
    as (Ha & _).
  destruct (proj2 (tag_assigned_after_link lowmem_123) _ _ _ _ _ _ _ H3)
    as (Hb & _).
  exact (conj (conj H1 (conj H2 Ha)) (conj H3 Hb)).
Defined.

Lemma allocation_failure_outcomes_witness :
  (hd false (oracle (init_state [false])) = false
   /\ exists s', create_node (Some 0%nat) k1 (init_state [false]) = Ok None s'
                 /\ heap s' = heap (init_state [false]))
  /\ (find_last_linear (Some 0%nat) (init_state [false]) = Ok None (searched [false])
      /\ exists s', create_leaf lowmem_123 (Some 0%nat) k1 3 200 (init_state [false])
                    = Abort A_leaf_new s'
                    /\ heap s' = heap (init_state [false]))
  /\ (find_last_linear (Some 0%nat) (init_state [true; false])
      = Ok None (searched [true; false])
      /\ oracle (init_state [true; false]) = [true; false]
      /\ exists s', create_leaf lowmem_123 (Some 0%nat) k1 3 200
                      (init_state [true; false])
                    = Abort A_zero_ptr s').
Proof.
  assert (H1 : hd false (oracle (init_state [false])) = false) by reflexivity.
  assert (H2 : find_last_linear (Some 0%nat) (init_state [false])
               = Ok None (searched [false])) by reflexivity.
  assert (H3 : find_last_linear (Some 0%nat) (init_state [true; false])
               = Ok None (searched [true; false])) by reflexivity.
  assert (H4 : oracle (init_state [true; false]) = [true; false]) by reflexivity.
  destruct (allocation_failure_outcomes lowmem_123) as (Pa & Pb & Pc).
  exact (conj (conj H1 (Pa _ 0%nat k1 H1))
           (conj (conj H2 (Pb _ _ k1 3 200 _ _ H2 H1))
                 (conj H3 (conj H4 (Pc _ _ k1 3 200 _ _ _ H3 H4 eq_refl))))).
Defined.

Lemma all_or_nothing_witness :
  (node_at (heap (init_state [true; true])) 0 = Some root
   /\ hd false (oracle (init_state [true; true])) = true
   /\ exists s', create_node (Some 0%nat) k1 (init_state [true; true])
                 = Ok (Some (next_block (init_state [true; true]))) s'
                 /\ heap s'
                    = <[0%nat := CNode (with_n_west
                                          (Some (next_block (init_state [true; true])))
                                          root)]>
                        (heap (init_state [true; true]))
                      ++ [CNode (new_node 0 k1)])
  /\ (find_last_linear (Some 0%nat) (init_state [false]) = Ok None (searched [false])
      /\ hd false (oracle (init_state [false])) = false
      /\ exists s', create_leaf lowmem_123 (Some 0%nat) k1 3 200 (init_state [false])
                    = Abort A_leaf_new s'
                    /\ heap s' = heap (init_state [false]))
  /\ (create_leaf lowmem_123 (Some 0%nat) k1 3 200 one_record
      = Ok (Some 1%nat) two_records
      /\ buf_at (heap two_records) (Some 4%nat)
         = Some ["001"; "002"; "003"]%byte).
Proof.
  assert (H1 : node_at (heap (init_state [true; true])) 0 = Some root)
    by reflexivity.
  assert (H2 : hd false (oracle (init_state [true; true])) = true) by reflexivity.
  assert (H3 : find_last_linear (Some 0%nat) (init_state [false])
               = Ok None (searched [false])) by reflexivity.
  assert (H4 : hd false (oracle (init_state [false])) = false) by reflexivity.
  assert (H5 : create_leaf lowmem_123 (Some 0%nat) k1 3 200 one_record
               = Ok (Some 1%nat) two_records) by (vm_compute; reflexivity).
  destruct (all_or_nothing lowmem_123) as (Pa & Pb & Pc).
  destruct (Pc _ _ _ _ _ _ _ H5) as (p & data & _ & _ & Hheap).
  assert (H6 : buf_at (heap two_records) (Some 4%nat)
               = Some ["001"; "002"; "003"]%byte) by (vm_compute; reflexivity).
  exact (conj (conj H1 (conj H2 (proj2 (Pa _ _ _ k1 H1) H2)))
           (conj (conj H3 (conj H4 (Pb _ _ k1 3 200 _ _ H3 H4)))
                 (conj H5 H6))).
Defined.

Lemma value_buffer_check_is_dead_witness :
  find_last_linear (Some 0%nat) (init_state [true; false])
  = Ok None (searched [true; false])
  /\ oracle (init_state [true; false]) = [true; false]
  /\ aborted_by A_zero_ptr
       (create_leaf lowmem_123 (Some 0%nat) k1 3 200 (init_state [true; false]))
     = true
  /\ aborted_by A_leaf_value
       (create_leaf lowmem_123 (Some 0%nat) k1 3 200 (init_state [true; false]))
     = false.
Proof.
  assert (H1 : find_last_linear (Some 0%nat) (init_state [true; false])
               = Ok None (searched [true; false])) by reflexivity.
  assert (H2 : oracle (init_state [true; false]) = [true; false]) by reflexivity.
  destruct (value_buffer_check_is_dead lowmem_123 (Some 0%nat) k1 3 200
              (init_state [true; false])) as (Ha & Hb).
  exact (conj H1 (conj H2 (conj (Hb _ _ _ _ eq_refl H1 H2 eq_refl) Ha))).
Defined.

(** * Further properties *)

(** ** What [create_node] leaves alone *)

Lemma chain_frame h h' q rs :
  chain h q rs -> (forall a, a ∈ rs -> h' !! a = h !! a) -> chain h' q rs.
Proof.
  induction 1 as [|a l rs Ha Hc IH]; intros Hsame; [constructor|].
  econstructor.
  - rewrite Hsame; [exact Ha | apply elem_of_cons; auto].
  - apply IH. intros b Hb. apply Hsame, elem_of_cons. auto.
Qed.

(** The heap after a successful [create_node]. *)
Lemma create_node_heap s p np path a s' :
  node_at (heap s) p = Some np ->
  create_node (Some p) path s = Ok (Some a) s' ->
  a = next_block s
  /\ heap s' = <[p := CNode (with_n_west (Some a) np)]> (heap s)
               ++ [CNode (new_node p path)].
Proof.
  intros Hn H. apply node_at_Some in Hn.
  destruct (create_node_ok_inv _ _ _ _ _ _ Hn H) as (o & tr & _ & -> & -> & _).
  split; reflexivity.
Qed.

(** X1: a successful [create_node] adds one block and changes, among the
    blocks that were there, the child link of the parent only: the parent
    keeps its parent link, chain head, path and tag, and every other block is
    as it was. *)
Theorem create_node_changes_child_link_only s p np path a s' :
  node_at (heap s) p = Some np ->
  create_node (Some p) path s = Ok (Some a) s' ->
  length (heap s') = S (length (heap s))
  /\ (exists np', node_at (heap s') p = Some np'
                  /\ n_north np' = n_north np /\ n_east np' = n_east np
                  /\ n_path np' = n_path np /\ n_tag np' = n_tag np)
  /\ (forall x, x <> p -> (x < length (heap s))%nat ->
                heap s' !! x = heap s !! x).
Proof.
  intros Hn H. destruct (create_node_heap _ _ _ _ _ _ Hn H) as (-> & ->).
  apply node_at_Some in Hn. pose proof (lookup_lt_Some _ _ _ Hn) as Hlt.
  split; [|split].
  - rewrite length_app, length_insert. simpl. lia.
  - eexists. split.
    + apply node_at_Some. rewrite heap_get_old by (by rewrite length_insert).
      by apply list_lookup_insert_eq.
    + by repeat split.
  - intros x Hx Hlx. rewrite heap_get_old by (by rewrite length_insert).
    by apply list_lookup_insert_ne.
Qed.

Lemma create_node_changes_child_link_only_witness :
  node_at (heap (init_state [true; true])) 0 = Some root
  /\ create_node (Some 0%nat) k1 (init_state [true; true])
     = Ok (Some 1%nat) one_container
  /\ length (heap one_container) = 2%nat.
Proof.
  assert (H1 : node_at (heap (init_state [true; true])) 0 = Some root)
    by reflexivity.
  assert (H2 : create_node (Some 0%nat) k1 (init_state [true; true])
               = Ok (Some 1%nat) one_container) by (vm_compute; reflexivity).
  destruct (create_node_changes_child_link_only _ _ _ _ _ _ H1 H2) as (Ha & _).
  exact (conj H1 (conj H2 Ha)).
Defined.

(** X2: [create_node] does not touch the records: every chain of the heap
    is the same chain afterwards, and a container other than the new one
    keeps its chain head, so that [find_last_linear] finds the same tail
    before and after. *)
Theorem create_node_keeps_chains s p np path a s' c nc rs :
  node_at (heap s) p = Some np ->
  create_node (Some p) path s = Ok (Some a) s' ->
  node_at (heap s) c = Some nc ->
  chain (heap s) (n_east nc) rs ->
  (exists nc', node_at (heap s') c = Some nc' /\ n_east nc' = n_east nc)
  /\ chain (heap s') (n_east nc) rs
  /\ exists s1 s1',
       find_last_linear (Some c) s = Ok (last rs) s1
       /\ find_last_linear (Some c) s' = Ok (last rs) s1'.
Proof.
  intros Hn H Hc Hch. destruct (create_node_heap _ _ _ _ _ _ Hn H) as (-> & Hheap).
  apply node_at_Some in Hn. apply node_at_Some in Hc.
  pose proof (lookup_lt_Some _ _ _ Hn) as Hlt.
  pose proof (lookup_lt_Some _ _ _ Hc) as Hlc.
  assert (Hch' : chain (heap s') (n_east nc) rs).
  { apply chain_frame with (heap s); [assumption|].
    intros x Hx. destruct (chain_member_leaf _ _ _ _ Hch Hx) as [l Hl].
    pose proof (lookup_lt_Some _ _ _ Hl) as Hlx.
    rewrite Hheap, heap_get_old by (by rewrite length_insert).
    apply list_lookup_insert_ne. congruence. }
  assert (Hc' : exists nc', heap s' !! c = Some (CNode nc') /\ n_east nc' = n_east nc).
  { rewrite Hheap, heap_get_old by (by rewrite length_insert).
    destruct (decide (p = c)) as [->|Hne].
    - rewrite list_lookup_insert_eq by assumption.
      rewrite Hn in Hc. injection Hc as ->. eauto.
    - rewrite list_lookup_insert_ne by assumption. eauto. }
  destruct Hc' as (nc' & Hc' & He).
  split; [|split].
  - exists nc'. split; [by apply node_at_Some | assumption].
  - assumption.
  - do 2 eexists. split.
    + by apply find_last_linear_run with nc.
    + apply find_last_linear_run with nc'; [assumption|]. by rewrite He.
Qed.

Lemma create_node_keeps_chains_witness :
  node_at (heap two_records) 0 = Some (with_n_east (Some 1%nat) root)
  /\ create_node (Some 0%nat) k1 two_records
     = Ok (Some 5%nat) (final_state (create_node (Some 0%nat) k1 two_records))
  /\ chain (heap two_records) (Some 1%nat) [1%nat; 3%nat]
  /\ chain (heap (final_state (create_node (Some 0%nat) k1 two_records)))
       (Some 1%nat) [1%nat; 3%nat].
Proof.
  assert (H1 : node_at (heap two_records) 0
               = Some (with_n_east (Some 1%nat) root))
    by (vm_compute; reflexivity).
  assert (H2 : create_node (Some 0%nat) k1 two_records
               = Ok (Some 5%nat)
                    (final_state (create_node (Some 0%nat) k1 two_records)))
    by (vm_compute; reflexivity).
  assert (H3 : chain (heap two_records)
                 (n_east (with_n_east (Some 1%nat) root)) [1%nat; 3%nat])
    by (apply is_chain_sound; vm_compute; reflexivity).
  destruct (create_node_keeps_chains _ _ _ _ _ _ _ _ _ H1 H2 H1 H3)
    as (_ & Hb & _).
  exact (conj H1 (conj H2 (conj H3 Hb))).
Defined.

(** X3: after two successful calls of [create_node] on the same parent,
    the first container is still in the heap as it was built, naming the
    parent as its parent, while the child link of the parent is the second
    one: it is neither released nor reachable from the parent. *)
Theorem create_node_twice_strands_first s p np path1 a s1 path2 b s2 :
  node_at (heap s) p = Some np ->
  create_node (Some p) path1 s = Ok (Some a) s1 ->
  create_node (Some p) path2 s1 = Ok (Some b) s2 ->
  node_at (heap s2) a = Some (new_node p path1)
  /\ node_at (heap s2) b = Some (new_node p path2)
  /\ a <> b
  /\ exists np2, node_at (heap s2) p = Some np2 /\ n_west np2 = Some b.
Proof.
  intros Hn H1 H2.
  destruct (create_node_heap _ _ _ _ _ _ Hn H1) as (-> & Hh1).
  apply node_at_Some in Hn. pose proof (lookup_lt_Some _ _ _ Hn) as Hlt.
  assert (Hp1 : node_at (heap s1) p
                = Some (with_n_west (Some (next_block s)) np)).
  { apply node_at_Some. rewrite Hh1, heap_get_old by (by rewrite length_insert).
    by apply list_lookup_insert_eq. }
  destruct (create_node_heap _ _ _ _ _ _ Hp1 H2) as (-> & Hh2).
  assert (Hlen1 : length (heap s1) = S (length (heap s))).
  { rewrite Hh1, length_app, length_insert. simpl. lia. }
  unfold next_block. rewrite Hlen1.
  split; [|split; [|split]].
  - apply node_at_Some. rewrite Hh2.
    rewrite heap_get_old by (rewrite length_insert; lia).
    rewrite list_lookup_insert_ne by lia.
    rewrite Hh1. apply heap_get_new0. by rewrite length_insert.
  - apply node_at_Some. rewrite Hh2. apply heap_get_new0.
    by rewrite length_insert.
  - lia.
  - eexists. split.
    + apply node_at_Some. rewrite Hh2.
      rewrite heap_get_old by (rewrite length_insert; lia).
      apply list_lookup_insert_eq. lia.
    + unfold next_block. by rewrite Hlen1.
Qed.

Lemma create_node_twice_strands_first_witness :
  node_at (heap (init_state [true; true])) 0 = Some root
  /\ create_node (Some 0%nat) k1 (init_state [true; true])
     = Ok (Some 1%nat) one_container
  /\ create_node (Some 0%nat) long_name one_container
     = Ok (Some 2%nat)
          (final_state (create_node (Some 0%nat) long_name one_container))
  /\ node_at (heap (final_state (create_node (Some 0%nat) long_name one_container))) 1
     = Some (new_node 0 k1).
Proof.
  assert (H1 : node_at (heap (init_state [true; true])) 0 = Some root)
    by reflexivity.
  assert (H2 : create_node (Some 0%nat) k1 (init_state [true; true])
               = Ok (Some 1%nat) one_container) by (vm_compute; reflexivity).
  assert (H3 : create_node (Some 0%nat) long_name one_container
               = Ok (Some 2%nat)
                    (final_state (create_node (Some 0%nat) long_name one_container)))
    by (vm_compute; reflexivity).
  destruct (create_node_twice_strands_first _ _ _ _ _ _ _ _ _ H1 H2 H3)
    as (Ha & _).
  exact (conj H1 (conj H2 (conj H3 Ha))).
Defined.

(** ** What [create_leaf] builds and what it leaves alone *)

(** The heap after a successful [create_leaf]. *)
Lemma create_leaf_heap lowmem parent key count value s r s' :
  create_leaf lowmem parent key count value s = Ok r s' ->
  exists p np rs data,
    parent = Some p
    /\ heap s !! p = Some (CNode np)
    /\ chain (heap s) (n_east np) rs
    /\ r = last rs
    /\ read_str lowmem (u8 value) (Z.to_nat (u16 count)) = (data, true)
    /\ heap s'
       = attach (heap s) p r (next_block s)
         ++ [CLeaf (new_leaf p r key (Some (S (next_block s)))
                      (int16 (u16 count)));
             CBuf (strncpy (repeat NUL (Z.to_nat (u16 count))) data
                     (Z.to_nat (u16 count)))].
Proof.
  intros H.
  apply create_leaf_ok_inv in H
    as (p & s1 & o & data & tr & -> & Hfind & Ho & Hread & -> & _).
  apply find_last_linear_ok_inv in Hfind
    as (p' & np & rs & [= <-] & Hp & Hc & -> & _).
  exists p, np, rs, data. repeat split; assumption.
Qed.

Lemma attach_node h p r a x n :
  h !! x = Some (CNode n) ->
  exists n', attach h p r a !! x = Some (CNode n')
             /\ n_north n' = n_north n /\ n_west n' = n_west n
             /\ n_path n' = n_path n /\ n_tag n' = n_tag n
             /\ (r <> None \/ p <> x -> n' = n).
Proof.
  intros Hx. pose proof (lookup_lt_Some _ _ _ Hx) as Hlt.
  unfold attach. destruct r as [t|].
  - destruct (h !! t) as [[| |l|]|] eqn:Ht; eauto 10.
    assert (t <> x) by congruence.
    rewrite list_lookup_insert_ne by assumption. eauto 10.
  - destruct (decide (p = x)) as [->|Hne].
    + rewrite Hx, list_lookup_insert_eq by assumption.
      eexists. repeat split. intros [[]|[]]; reflexivity.
    + destruct (h !! p) as [[]|]; rewrite ?list_lookup_insert_ne by assumption;
        eauto 10.
Qed.

Lemma attach_buf h p r a x bs :
  h !! x = Some (CBuf bs) -> attach h p r a !! x = Some (CBuf bs).
Proof.
  intros Hx. unfold attach. destruct r as [t|].
  - destruct (h !! t) as [[| |l|]|] eqn:Ht; try assumption.
    assert (t <> x) by congruence. by rewrite list_lookup_insert_ne.
  - destruct (h !! p) as [[|n| |]|] eqn:Hp; try assumption.
    assert (p <> x) by congruence. by rewrite list_lookup_insert_ne.
Qed.

Lemma attach_leaf_east h p r a x l :
  h !! x = Some (CLeaf l) ->
  attach h p r a !! x
  = Some (CLeaf (if bool_decide (r = Some x) then with_l_east (Some a) l else l)).
Proof.
  intros Hx. pose proof (lookup_lt_Some _ _ _ Hx) as Hlt.
  unfold attach. destruct r as [t|].
  - destruct (decide (t = x)) as [->|Hne].
    + rewrite Hx, list_lookup_insert_eq by assumption.
      by rewrite bool_decide_eq_true_2.
    + rewrite bool_decide_eq_false_2 by congruence.
      destruct (h !! t) as [[]|]; rewrite ?list_lookup_insert_ne by assumption;
        assumption.
  - rewrite bool_decide_eq_false_2 by discriminate.
    destruct (h !! p) as [[|n| |]|] eqn:Hp; try assumption.
    assert (p <> x) by congruence. by rewrite list_lookup_insert_ne.
Qed.

(** X4: a successful [create_leaf] adds two blocks, the record and its
    value buffer, and changes one link among the blocks that were there.  A
    record that was there keeps its key, value pointer, length, tag and
    back-reference, and its sibling link unless it was the tail; a container
    keeps its parent link, child link, path and tag; a value buffer keeps its
    bytes. *)
Theorem create_leaf_changes_one_link_only lowmem parent key count value s r s' :
  create_leaf lowmem parent key count value s = Ok r s' ->
  length (heap s') = S (S (length (heap s)))
  /\ (forall x l, leaf_at (heap s) x = Some l ->
        leaf_at (heap s') x
        = Some (if bool_decide (r = Some x)
                then with_l_east (Some (next_block s)) l else l))
  /\ (forall x n, node_at (heap s) x = Some n ->
        exists n', node_at (heap s') x = Some n'
                   /\ n_north n' = n_north n /\ n_west n' = n_west n
                   /\ n_path n' = n_path n /\ n_tag n' = n_tag n
                   /\ (r <> None \/ parent <> Some x -> n' = n))
  /\ (forall x bs, buf_at (heap s) (Some x) = Some bs ->
                   buf_at (heap s') (Some x) = Some bs).
Proof.
  intros H. apply create_leaf_heap in H
    as (p & np & rs & data & -> & Hp & Hc & -> & Hread & ->).
  split; [|split; [|split]].
  - rewrite length_app, attach_length. simpl. lia.
  - intros x l Hx. apply leaf_at_Some in Hx. apply leaf_at_Some.
    pose proof (lookup_lt_Some _ _ _ Hx) as Hlt.
    rewrite heap_get_old by (by rewrite attach_length).
    by apply attach_leaf_east.
  - intros x n Hx. apply node_at_Some in Hx.
    pose proof (lookup_lt_Some _ _ _ Hx) as Hlt.
    destruct (attach_node (heap s) p (last rs) (next_block s) x n Hx)
      as (n' & Hn' & H1 & H2 & H3 & H4 & H5).
    exists n'. split.
    + apply node_at_Some. by rewrite heap_get_old by (by rewrite attach_length).
    + repeat split; try assumption.
      intros [Hr|Hne]; apply H5; [by left | right; congruence].
  - intros x bs Hx. unfold buf_at in *.
    destruct (heap s !! x) as [[| | |bs']|] eqn:Ex; try discriminate.
    injection Hx as ->. pose proof (lookup_lt_Some _ _ _ Ex) as Hlt.
    rewrite heap_get_old by (by rewrite attach_length).
    by rewrite (attach_buf _ _ _ _ _ _ Ex).
Qed.

Lemma create_leaf_changes_one_link_only_witness :
  create_leaf lowmem_123 (Some 0%nat) k1 3 200 one_record
  = Ok (Some 1%nat) two_records
  /\ length (heap two_records) = S (S (length (heap one_record)))
  /\ buf_at (heap two_records) (Some 2%nat) = Some ["001"; "002"; "003"]%byte.
Proof.
  assert (H : create_leaf lowmem_123 (Some 0%nat) k1 3 200 one_record
              = Ok (Some 1%nat) two_records) by (vm_compute; reflexivity).
  assert (Hb : buf_at (heap one_record) (Some 2%nat)
               = Some ["001"; "002"; "003"]%byte) by (vm_compute; reflexivity).
  destruct (create_leaf_changes_one_link_only _ _ _ _ _ _ _ _ H)
    as (Ha & _ & _ & Hbuf).
  exact (conj H (conj Ha (Hbuf _ _ Hb))).
Defined.

(** X5: whatever the length of the chain, a successful [create_leaf] puts
    the new record at its end and keeps the order of the others; a search
    of the tail right after it finds the new record. *)
Theorem create_leaf_appends_at_end lowmem p np rs key count value s r s' :
  node_at (heap s) p = Some np ->
  chain (heap s) (n_east np) rs ->
  create_leaf lowmem (Some p) key count value s = Ok r s' ->
  (exists np', node_at (heap s') p = Some np'
               /\ chain (heap s') (n_east np') (rs ++ [next_block s])
               /\ (rs <> [] -> n_east np' = n_east np))
  /\ find_last_linear (Some p) s' = Ok (Some (next_block s)) s'.
Proof.
  intros Hn Hc H. apply node_at_Some in Hn.
  destruct (create_leaf_appends _ _ _ _ _ _ _ _ _ _ Hn Hc H)
    as (_ & (np' & Hp' & Hc') & _ & _).
  split.
  - exists np'. split; [by apply node_at_Some|]. split; [assumption|].
    intros Hne. apply create_leaf_heap in H
      as (p0 & np0 & rs0 & data & [= <-] & Hp0 & Hc0 & -> & _ & Hh).
    rewrite Hn in Hp0. injection Hp0 as <-.
    rewrite (chain_functional _ _ _ _ Hc0 Hc) in Hh.
    destruct (last rs) as [t|] eqn:Hlast; [|by apply last_None in Hlast].
    destruct (attach_node (heap s) p (Some t) (next_block s) p np Hn)
      as (n' & Hn' & _ & _ & _ & _ & Hsame).
    rewrite (Hsame (or_introl (Some_ne_None t))) in Hn'.
    rewrite Hh, heap_get_old in Hp'
      by (rewrite attach_length; by apply lookup_lt_Some in Hn).
    rewrite Hn' in Hp'. by injection Hp' as <-.
  - rewrite (find_last_linear_run _ _ _ _ Hp' Hc'), last_snoc. reflexivity.
Qed.

Lemma create_leaf_appends_at_end_witness :
  node_at (heap two_records) 0 = Some (with_n_east (Some 1%nat) root)
  /\ chain (heap two_records) (Some 1%nat) [1%nat; 3%nat]
  /\ create_leaf lowmem_123 (Some 0%nat) k1 3 200 two_records
     = Ok (Some 3%nat) three_records
  /\ find_last_linear (Some 0%nat) three_records
     = Ok (Some (next_block two_records)) three_records.
Proof.
  assert (H1 : node_at (heap two_records) 0
               = Some (with_n_east (Some 1%nat) root))
    by (vm_compute; reflexivity).
  assert (H2 : chain (heap two_records)
                 (n_east (with_n_east (Some 1%nat) root)) [1%nat; 3%nat])
    by (apply is_chain_sound; vm_compute; reflexivity).
  assert (H3 : create_leaf lowmem_123 (Some 0%nat) k1 3 200 two_records
               = Ok (Some 3%nat) three_records) by (vm_compute; reflexivity).
  destruct (create_leaf_appends_at_end _ _ _ _ _ _ _ _ _ _ H1 H2 H3) as (_ & Hb).
  exact (conj H1 (conj H2 (conj H3 Hb))).
Defined.

(** X6: the first [create_leaf] on a container that [create_node] has just
    returned gives back [NULL], although it succeeds: the new record becomes
    the chain head of that container and refers back to it. *)
Theorem first_record_of_new_container lowmem s p np path a s1 key count value r s2 :
  node_at (heap s) p = Some np ->
  create_node (Some p) path s = Ok (Some a) s1 ->
  create_leaf lowmem (Some a) key count value s1 = Ok r s2 ->
  r = None
  /\ (exists na, node_at (heap s2) a = Some na
                 /\ n_east na = Some (next_block s1) /\ n_north na = Some p)
  /\ (exists l, leaf_at (heap s2) (next_block s1) = Some l
                /\ l_west l = Some a /\ l_east l = None).
Proof.
  intros Hn H1 H2. destruct (create_node_heap _ _ _ _ _ _ Hn H1) as (-> & Hh1).
  assert (Ha : heap s1 !! next_block s = Some (CNode (new_node p path))).
  { rewrite Hh1. apply heap_get_new0. by rewrite length_insert. }
  pose proof (lookup_lt_Some _ _ _ Ha) as Hlt.
  apply create_leaf_heap in H2
    as (a' & na & rs & data & [= <-] & Ha' & Hc & -> & _ & ->).
  rewrite Ha in Ha'. injection Ha' as <-. inversion Hc; subst.
  split; [reflexivity|]. split.
  - eexists. split.
    + apply node_at_Some. rewrite heap_get_old by (by rewrite attach_length).
      unfold attach. simpl last. rewrite Ha. by apply list_lookup_insert_eq.
    + by split.
  - eexists. split.
    + apply leaf_at_Some. apply heap_get_new0. by rewrite attach_length.
    + by split.
Qed.

Lemma first_record_of_new_container_witness :
  node_at (heap (init_state [true; true; true])) 0 = Some root
  /\ create_node (Some 0%nat) k1 (init_state [true; true; true])
     = Ok (Some 1%nat)
          (final_state (create_node (Some 0%nat) k1 (init_state [true; true; true])))
  /\ create_leaf lowmem_123 (Some 1%nat) k1 3 200
       (final_state (create_node (Some 0%nat) k1 (init_state [true; true; true])))
     = Ok None
          (final_state
             (create_leaf lowmem_123 (Some 1%nat) k1 3 200
                (final_state
                   (create_node (Some 0%nat) k1 (init_state [true; true; true])))))
  /\ @None nat = None.
Proof.
  assert (H1 : node_at (heap (init_state [true; true; true])) 0 = Some root)
    by reflexivity.
  assert (H2 : create_node (Some 0%nat) k1 (init_state [true; true; true])
     = Ok (Some 1%nat)
          (final_state (create_node (Some 0%nat) k1 (init_state [true; true; true]))))
    by (vm_compute; reflexivity).
  assert (H3 : create_leaf lowmem_123 (Some 1%nat) k1 3 200
       (final_state (create_node (Some 0%nat) k1 (init_state [true; true; true])))
     = Ok None
          (final_state
             (create_leaf lowmem_123 (Some 1%nat) k1 3 200
                (final_state
                   (create_node (Some 0%nat) k1 (init_state [true; true; true]))))))
    by (vm_compute; reflexivity).
  destruct (first_record_of_new_container _ _ _ _ _ _ _ _ _ _ _ _ H1 H2 H3)
    as (Ha & _).
  exact (conj H1 (conj H2 (conj H3 Ha))).
Defined.

(** ** The back-references *)

Lemma backlinked_snoc h h' prev rs a la :
  backlinked h prev rs = true ->
  (forall x l, x ∈ rs -> h !! x = Some (CLeaf l) ->
       exists l', h' !! x = Some (CLeaf l') /\ l_west l' = l_west l) ->
  h' !! a = Some (CLeaf la) ->
  l_west la = Some (default prev (last rs)) ->
  backlinked h' prev (rs ++ [a]) = true.
Proof.
  revert prev. induction rs as [|b rs IH]; intros prev Hb Hkeep Ha Hw.
  - simpl in *. rewrite Ha, Hw. by rewrite bool_decide_eq_true_2.
  - simpl in Hb. destruct (h !! b) as [[| |l|]|] eqn:Eb; try discriminate.
    apply andb_true_iff in Hb as [Hwb Hrest].
    destruct (Hkeep b l) as (l' & Hl' & Hwl'); [apply elem_of_cons; auto | assumption |].
    simpl. rewrite Hl', Hwl', Hwb. simpl.
    apply IH; try assumption.
    + intros x lx Hx. apply Hkeep, elem_of_cons. auto.
    + rewrite Hw. destruct rs as [|c rs]; [reflexivity|].
      rewrite last_cons_cons.
      destruct (last (c :: rs)) eqn:E; [reflexivity | by apply last_None in E].
Qed.

(** X7: [create_leaf] keeps the chain linked backwards: when the first
    record of the chain refers back to the container and every other record
    to the one before it, the same holds of the chain with the new record
    at its end. *)
Theorem create_leaf_keeps_backlinks lowmem p np rs key count value s r s' :
  node_at (heap s) p = Some np ->
  chain (heap s) (n_east np) rs ->
  backlinked (heap s) p rs = true ->
  create_leaf lowmem (Some p) key count value s = Ok r s' ->
  backlinked (heap s') p (rs ++ [next_block s]) = true.
Proof.
  intros Hn Hc Hb H. apply node_at_Some in Hn.
  apply create_leaf_heap in H
    as (p0 & np0 & rs0 & data & [= <-] & Hp0 & Hc0 & -> & _ & ->).
  rewrite Hn in Hp0. injection Hp0 as <-.
  rewrite (chain_functional _ _ _ _ Hc0 Hc).
  eapply backlinked_snoc; [exact Hb | | |].
  - intros x l Hx Hl. pose proof (lookup_lt_Some _ _ _ Hl) as Hlt.
    rewrite heap_get_old by (by rewrite attach_length).
    rewrite (attach_leaf_east _ _ _ _ _ _ Hl).
    eexists. split; [reflexivity|]. by destruct (bool_decide _).
  - apply heap_get_new0. by rewrite attach_length.
  - cbn [l_west new_leaf]. unfold back_ref. by destruct (last rs).
Qed.

Lemma create_leaf_keeps_backlinks_witness :
  node_at (heap two_records) 0 = Some (with_n_east (Some 1%nat) root)
  /\ chain (heap two_records) (Some 1%nat) [1%nat; 3%nat]
  /\ backlinked (heap two_records) 0 [1%nat; 3%nat] = true
  /\ create_leaf lowmem_123 (Some 0%nat) k1 3 200 two_records
     = Ok (Some 3%nat) three_records
  /\ backlinked (heap three_records) 0 ([1%nat; 3%nat] ++ [next_block two_records])
     = true.
Proof.
  assert (H1 : node_at (heap two_records) 0
               = Some (with_n_east (Some 1%nat) root))
    by (vm_compute; reflexivity).
  assert (H2 : chain (heap two_records)
                 (n_east (with_n_east (Some 1%nat) root)) [1%nat; 3%nat])
    by (apply is_chain_sound; vm_compute; reflexivity).
  assert (H3 : backlinked (heap two_records) 0 [1%nat; 3%nat] = true)
    by (vm_compute; reflexivity).
  assert (H4 : create_leaf lowmem_123 (Some 0%nat) k1 3 200 two_records
               = Ok (Some 3%nat) three_records) by (vm_compute; reflexivity).
  exact (conj H1 (conj H2 (conj H3 (conj H4
           (create_leaf_keeps_backlinks _ _ _ _ _ _ _ _ _ _ H1 H2 H3 H4))))).
Defined.

(** X8: appending to one container leaves the chain of another as it is,
    when the tail that gets the new sibling is not a record of that chain:
    the other container keeps its chain head and the chain its records. *)
Theorem create_leaf_keeps_other_chains lowmem p key count value s r s' c nc rs :
  create_leaf lowmem (Some p) key count value s = Ok r s' ->
  c <> p ->
  node_at (heap s) c = Some nc ->
  chain (heap s) (n_east nc) rs ->
  (forall t, r = Some t -> t ∉ rs) ->
  node_at (heap s') c = Some nc /\ chain (heap s') (n_east nc) rs.
Proof.
  intros H Hne Hc Hch Hout. apply node_at_Some in Hc.
  pose proof (lookup_lt_Some _ _ _ Hc) as Hlc.
  apply create_leaf_heap in H
    as (p0 & np & rs0 & data & [= <-] & Hp & _ & -> & _ & ->).
  split.
  - apply node_at_Some. rewrite heap_get_old by (by rewrite attach_length).
    destruct (attach_node (heap s) p (last rs0) (next_block s) c nc Hc)
      as (n' & Hn' & _ & _ & _ & _ & Hsame).
    rewrite Hn'. do 2 f_equal. apply Hsame. right. congruence.
  - apply chain_frame with (heap s); [assumption|].
    intros x Hx. destruct (chain_member_leaf _ _ _ _ Hch Hx) as [l Hl].
    pose proof (lookup_lt_Some _ _ _ Hl) as Hlx.
    rewrite heap_get_old by (by rewrite attach_length).
    rewrite (attach_leaf_east _ _ _ _ _ _ Hl), Hl.
    rewrite bool_decide_eq_false_2; [reflexivity|].
    intros Hr. by apply (Hout x).
Qed.

Lemma create_leaf_keeps_other_chains_witness :
  create_leaf lowmem_123 (Some 1%nat) k1 3 200 two_chains
  = Ok (Some 4%nat) (final_state (create_leaf lowmem_123 (Some 1%nat) k1 3 200
                                    two_chains))
  /\ node_at (heap two_chains) 0
     = Some (with_n_east (Some 2%nat) (with_n_west (Some 1%nat) root))
  /\ chain (heap two_chains) (Some 2%nat) [2%nat]
  /\ chain (heap (final_state (create_leaf lowmem_123 (Some 1%nat) k1 3 200
                                 two_chains)))
       (Some 2%nat) [2%nat].
Proof.
  assert (H1 : create_leaf lowmem_123 (Some 1%nat) k1 3 200 two_chains
               = Ok (Some 4%nat)
                    (final_state (create_leaf lowmem_123 (Some 1%nat) k1 3 200
                                    two_chains)))
    by (vm_compute; reflexivity).
  assert (H2 : node_at (heap two_chains) 0
               = Some (with_n_east (Some 2%nat) (with_n_west (Some 1%nat) root)))
    by (vm_compute; reflexivity).
  assert (H3 : chain (heap two_chains)
                 (n_east (with_n_east (Some 2%nat) (with_n_west (Some 1%nat) root)))
                 [2%nat])
    by (apply is_chain_sound; vm_compute; reflexivity).
  assert (H4 : forall t, Some 4%nat = Some t -> t ∉ [2%nat]).
  { intros t [= <-]. apply (bool_decide_unpack _). vm_compute. exact I. }
  destruct (create_leaf_keeps_other_chains _ _ _ _ _ _ _ _ _ _ _ H1
              (Nat.neq_0_succ 0) H2 H3 H4) as (_ & Hb).
  exact (conj H1 (conj H2 (conj H3 Hb))).
Defined.

(** ** The value and its length *)

Lemma read_str_spec lowmem src n data :
  read_str lowmem src n = (data, true) ->
  (length data <= n)%nat
  /\ Forall (fun b => b <> NUL) data
  /\ (forall i b, data !! i = Some b -> lowmem (src + Z.of_nat i) = Some b)
  /\ ((length data < n)%nat -> lowmem (src + Z.of_nat (length data)) = Some NUL).
Proof.
  revert src data. induction n as [|n IH]; intros src data H; simpl in H.
  - injection H as <-. repeat split; [simpl; lia | constructor | | simpl; lia].
    intros i b Hi. by rewrite lookup_nil in Hi.
  - destruct (lowmem src) as [b|] eqn:Eb; [|discriminate].
    destruct (Byte.eqb b NUL) eqn:Enul.
    + injection H as <-. apply Byte.byte_dec_bl in Enul. subst b.
      repeat split; [simpl; lia | constructor | |].
      * intros i b Hi. by rewrite lookup_nil in Hi.
      * intros _. simpl. by rewrite Z.add_0_r.
    + destruct (read_str lowmem (src + 1) n) as [bs ok] eqn:Er.
      injection H as <- ->.
      destruct (IH _ _ Er) as (Hlen & Hnn & Hbytes & Hend).
      repeat split.
      * simpl. lia.
      * constructor; [by apply Byte.eqb_false | assumption].
      * intros [|i] c Hi; simpl in Hi.
        -- injection Hi as <-. by rewrite Z.add_0_r.
        -- rewrite <- (Hbytes i c Hi). f_equal. lia.
      * intros Hlt. simpl in Hlt. rewrite <- Hend by lia. f_equal. simpl length. lia.
Qed.

Lemma cstr_no_nul bs : Forall (fun b => b <> NUL) bs -> cstr bs = bs.
Proof.
  induction 1 as [|b bs Hb _ IH]; [reflexivity|]. simpl.
  destruct (Byte.eqb b NUL) eqn:E; [|by rewrite IH].
  by apply Byte.byte_dec_bl in E.
Qed.

Lemma strncpy_into_zeros n data :
  Forall (fun b => b <> NUL) data -> (length data <= n)%nat ->
  strncpy (repeat NUL n) data n = data ++ repeat NUL (n - length data).
Proof.
  intros Hnn Hlen. unfold strncpy. rewrite (cstr_no_nul _ Hnn).
  rewrite take_ge by assumption.
  rewrite drop_ge by (by rewrite repeat_length). by rewrite app_nil_r.
Qed.

(** X9: the value buffer of a record that [create_leaf] has created holds
    the bytes found at the address made from the value byte, up to the first
    zero byte or [count] bytes, followed by zero bytes up to [count] bytes:
    what follows a zero byte of the value is not stored. *)
Theorem value_stops_at_zero_byte lowmem parent key count value s r s' :
  create_leaf lowmem parent key count value s = Ok r s' ->
  exists l data,
    leaf_at (heap s') (next_block s) = Some l
    /\ buf_at (heap s') (l_value l)
       = Some (data ++ repeat NUL (Z.to_nat (u16 count) - length data))
    /\ (length data <= Z.to_nat (u16 count))%nat
    /\ Forall (fun b => b <> NUL) data
    /\ (forall i b, data !! i = Some b ->
                    lowmem (u8 value + Z.of_nat i) = Some b)
    /\ ((length data < Z.to_nat (u16 count))%nat ->
        lowmem (u8 value + Z.of_nat (length data)) = Some NUL).
Proof.
  intros H. apply create_leaf_heap in H
    as (p & np & rs & data & -> & Hp & Hc & -> & Hread & ->).
  destruct (read_str_spec _ _ _ _ Hread) as (Hlen & Hnn & Hbytes & Hend).
  eexists. exists data. split; [|split].
  - apply leaf_at_Some. apply heap_get_new0. by rewrite attach_length.
  - cbn [l_value new_leaf buf_at].
    rewrite heap_get_new1 by (by rewrite attach_length).
    by rewrite strncpy_into_zeros.
  - by repeat split.
Qed.

Lemma value_stops_at_zero_byte_witness :
  create_leaf lowmem_103 (Some 0%nat) k1 3 200 (init_state [true; true])
  = Ok None (final_state
               (create_leaf lowmem_103 (Some 0%nat) k1 3 200 (init_state [true; true])))
  /\ buf_at (heap (final_state
                     (create_leaf lowmem_103 (Some 0%nat) k1 3 200
                        (init_state [true; true])))) (Some 2%nat)
     = Some ["001"; "000"; "000"]%byte
  /\ exists l data,
       leaf_at (heap (final_state
                        (create_leaf lowmem_103 (Some 0%nat) k1 3 200
                           (init_state [true; true]))))
         (next_block (init_state [true; true])) = Some l
       /\ buf_at (heap (final_state
                          (create_leaf lowmem_103 (Some 0%nat) k1 3 200
                             (init_state [true; true])))) (l_value l)
          = Some (data ++ repeat NUL (Z.to_nat (u16 3) - length data))
       /\ (length data <= Z.to_nat (u16 3))%nat
       /\ Forall (fun b => b <> NUL) data
       /\ (forall i b, data !! i = Some b ->
                       lowmem_103 (u8 200 + Z.of_nat i) = Some b)
       /\ ((length data < Z.to_nat (u16 3))%nat ->
           lowmem_103 (u8 200 + Z.of_nat (length data)) = Some NUL).
Proof.
  assert (H : create_leaf lowmem_103 (Some 0%nat) k1 3 200 (init_state [true; true])
              = Ok None (final_state
                           (create_leaf lowmem_103 (Some 0%nat) k1 3 200
                              (init_state [true; true]))))
    by (vm_compute; reflexivity).
  assert (Hb : buf_at (heap (final_state
                     (create_leaf lowmem_103 (Some 0%nat) k1 3 200
                        (init_state [true; true])))) (Some 2%nat)
     = Some ["001"; "000"; "000"]%byte) by (vm_compute; reflexivity).
  exact (conj H (conj Hb (value_stops_at_zero_byte _ _ _ _ _ _ _ _ H))).
Defined.

Lemma int16_small z : 0 <= z < 32768 -> int16 z = z.
Proof.
  intros Hz. unfold int16. rewrite Z.mod_small by lia.
  destruct (z <? 32768) eqn:E; [reflexivity|]. apply Z.ltb_ge in E. lia.
Qed.

Lemma int16_large z : 32768 <= z < 65536 -> int16 z = z - 65536.
Proof.
  intros Hz. unfold int16. rewrite Z.mod_small by lia.
  destruct (z <? 32768) eqn:E; [|reflexivity]. apply Z.ltb_lt in E. lia.
Qed.

Lemma u16_range z : 0 <= u16 z < 65536.
Proof. unfold u16. apply Z.mod_pos_bound. lia. Qed.

Lemma strncpy_length dst src n :
  (n <= length dst)%nat -> length (strncpy dst src n) = length dst.
Proof.
  intros Hn. unfold strncpy. rewrite !length_app, repeat_length, length_drop.
  pose proof (length_take (cstr src) n). lia.
Qed.

(** X10: the value buffer always has [count] bytes, but the length field is
    an [int16_t] that gets the [uint16_t] count: it holds the count up to
    32767, and for a count of 32768 bytes or more it holds the count less
    65536, a negative number. *)
Theorem length_field_is_signed lowmem parent key count value s r s' :
  create_leaf lowmem parent key count value s = Ok r s' ->
  exists l bs,
    leaf_at (heap s') (next_block s) = Some l
    /\ buf_at (heap s') (l_value l) = Some bs
    /\ Z.of_nat (length bs) = u16 count
    /\ (u16 count < 32768 -> l_size l = u16 count)
    /\ (32768 <= u16 count -> l_size l = u16 count - 65536 /\ l_size l < 0).
Proof.
  intros H. apply create_leaf_heap in H
    as (p & np & rs & data & -> & Hp & Hc & -> & Hread & ->).
  pose proof (u16_range count) as Hr.
  do 2 eexists. split; [|split; [|split; [|split]]].
  - apply leaf_at_Some. apply heap_get_new0. by rewrite attach_length.
  - cbn [l_value new_leaf buf_at].
    by rewrite heap_get_new1 by (by rewrite attach_length).
  - rewrite strncpy_length by (by rewrite repeat_length).
    rewrite repeat_length. lia.
  - intros Hs. cbn [l_size new_leaf]. apply int16_small. lia.
  - intros Hs. cbn [l_size new_leaf]. rewrite int16_large by lia. lia.
Qed.

Lemma length_field_is_signed_witness :
  exists s' l,
    create_leaf lowmem_zero (Some 0%nat) k1 40000 0 (init_state [true; true])
    = Ok None s'
    /\ leaf_at (heap s') 1 = Some l
    /\ l_size l = -25536.
Proof.
  assert (H1 : find_last_linear (Some 0%nat) (init_state [true; true])
               = Ok None (searched [true; true])) by reflexivity.
  assert (H2 : read_str lowmem_zero (u8 0) (Z.to_nat (u16 40000)) = ([], true))
    by reflexivity.
  destruct (create_leaf_run lowmem_zero 0 k1 40000 0 _ _ _ _ _ H1 eq_refl H2)
    as (tr & H & _).
  destruct (length_field_is_signed _ _ _ _ _ _ _ _ H)
    as (l & bs & Hl & _ & _ & _ & Hbig).
  assert (Hc : 32768 <= u16 40000) by (vm_compute; discriminate).
  exact (ex_intro _ _ (ex_intro _ l (conj H (conj Hl (proj1 (Hbig Hc)))))).
Defined.

(** ** More on [find_last_linear] *)

Lemma walk_fault_state fuel a s s' : walk fuel a s = Fault s' -> s' = s.
Proof.
  revert a. induction fuel as [|fuel IH]; intros a H; simpl walk in H;
    destruct (load_leaf_cases s a) as [(l & _ & Hl)|Hl];
    try (rewrite (bind_fault _ _ _ _ Hl) in H; by injection H);
    rewrite (bind_ok _ _ _ _ _ Hl) in H;
    destruct (l_east l) as [next|]; try discriminate.
  rewrite (bind_ok _ _ s tt s) in H by reflexivity. eauto.
Qed.

(** X11: [find_last_linear] only reads.  When it returns, the container has
    a finite chain that ends with an empty sibling link and the result is its
    last record, [NULL] for the empty chain; the heap is as before, and the
    whole state is when the result is not [NULL].  When it stops on an
    invalid access or a failed assertion, the state is as before too. *)
Theorem find_last_linear_only_reads parent s :
  (forall r s', find_last_linear parent s = Ok r s' ->
     exists p np rs,
       parent = Some p /\ node_at (heap s) p = Some np
       /\ chain (heap s) (n_east np) rs /\ r = last rs
       /\ heap s' = heap s /\ oracle s' = oracle s /\ trail s' = trail s
       /\ (r <> None -> s' = s))
  /\ (forall s', find_last_linear parent s = Fault s' -> s' = s)
  /\ (forall c s', find_last_linear parent s = Abort c s' ->
                   s' = s /\ parent = None).
Proof.
  split; [|split].
  - intros r s' H. apply find_last_linear_ok_inv in H
      as (p & np & rs & -> & Hp & Hc & -> & ->).
    exists p, np, rs. repeat split; try assumption.
    + by apply node_at_Some.
    + by destruct (last rs).
    + by destruct (last rs).
    + by destruct (last rs).
    + by destruct (last rs).
  - intros s' H. destruct parent as [p|]; [|discriminate].
    unfold find_last_linear in H. rewrite (bind_ok _ _ _ p s) in H by reflexivity.
    destruct (load_node_cases s p) as [(np & _ & Hl)|Hl].
    + rewrite (bind_ok _ _ _ _ _ Hl) in H.
      destruct (n_east np); [by apply walk_fault_state in H | discriminate].
    + rewrite (bind_fault _ _ _ _ Hl) in H. by injection H.
  - intros c s' H. destruct parent as [p|].
    + pose proof (find_last_linear_no_abort c p s) as Hno.
      rewrite H in Hno. simpl in Hno. by destruct c.
    + injection H as _ <-. by split.
Qed.

Lemma find_last_linear_only_reads_witness :
  find_last_linear (Some 0%nat) two_records = Ok (Some 3%nat) two_records
  /\ exists p np rs,
       Some 0%nat = Some p /\ node_at (heap two_records) p = Some np
       /\ chain (heap two_records) (n_east np) rs /\ Some 3%nat = last rs
       /\ heap two_records = heap two_records
       /\ oracle two_records = oracle two_records
       /\ trail two_records = trail two_records
       /\ (Some 3%nat <> None -> two_records = two_records).
Proof.
  assert (H : find_last_linear (Some 0%nat) two_records
              = Ok (Some 3%nat) two_records) by (vm_compute; reflexivity).
  exact (conj H (proj1 (find_last_linear_only_reads _ _) _ _ H)).
Defined.

Lemma walk_in_ring fuel s ring a :
  circular (heap s) ring -> a ∈ ring -> walk fuel a s = Diverge.
Proof.
  intros Hring. revert a. induction fuel as [|fuel IH]; intros a Ha;
    destruct (Hring a Ha) as (l & next & Hl & He & Hnext); simpl walk;
    rewrite (bind_ok _ _ _ _ _ (load_leaf_run _ _ _ Hl)), He; [reflexivity|].
  rewrite (bind_ok _ _ s tt s) by reflexivity. by apply IH.
Qed.

(** X12: on a chain that runs in a circle [find_last_linear] does not
    return: the loop has no other exit than an empty sibling link. *)
Theorem find_last_linear_circular s p np first ring :
  node_at (heap s) p = Some np ->
  n_east np = Some first ->
  first ∈ ring ->
  circular (heap s) ring ->
  find_last_linear (Some p) s = Diverge.
Proof.
  intros Hn He Hin Hring. apply node_at_Some in Hn.
  unfold find_last_linear. rewrite (bind_ok _ _ _ p s) by reflexivity.
  rewrite (bind_ok _ _ _ _ _ (load_node_run _ _ _ Hn)), He.
  by apply walk_in_ring with ring.
Qed.

Lemma find_last_linear_circular_witness :
  node_at (heap looping) 0 = Some (with_n_east (Some 1%nat) root)
  /\ circular (heap looping) [1%nat]
  /\ find_last_linear (Some 0%nat) looping = Diverge.
Proof.
  assert (H1 : node_at (heap looping) 0 = Some (with_n_east (Some 1%nat) root))
    by reflexivity.
  assert (H2 : circular (heap looping) [1%nat]).
  { intros a Ha. apply list_elem_of_singleton in Ha as ->.
    exists (with_l_east (Some 1%nat) zero_leaf), 1%nat.
    repeat split. apply list_elem_of_singleton. reflexivity. }
  assert (H3 : 1%nat ∈ [1%nat]) by (apply list_elem_of_singleton; reflexivity).
  exact (conj H1 (conj H2
           (find_last_linear_circular _ _ _ _ _ H1 eq_refl H3 H2))).
Defined.

(** ** What of a key or path is kept *)


(** X13: the key field of a new record depends on the key given through
    its first 127 bytes before a zero byte only.  A key of at most 127 bytes
    with no zero byte is read back as it was given; two keys that agree on
    those 127 bytes give the same key field, whatever follows.  The same
    holds of the path of a new container with 255 bytes. *)
Theorem stored_string_depends_on_prefix lowmem :
  (forall s parent key count value r s',
      create_leaf lowmem parent key count value s = Ok r s' ->
      exists l, leaf_at (heap s') (next_block s) = Some l
                /\ (Forall (fun b => b <> NUL) key -> (length key <= 127)%nat ->
                    cstr (l_key l) = key)
                /\ (forall key' r' s'',
                      create_leaf lowmem parent key' count value s = Ok r' s'' ->
                      take 127 (cstr key') = take 127 (cstr key) ->
                      exists l', leaf_at (heap s'') (next_block s) = Some l'
                                 /\ l_key l' = l_key l))
  /\ (forall s p np path a s',
        node_at (heap s) p = Some np ->
        create_node (Some p) path s = Ok (Some a) s' ->
        exists n, node_at (heap s') a = Some n
                  /\ (Forall (fun b => b <> NUL) path -> (length path <= 255)%nat ->
                      cstr (n_path n) = path)
                  /\ (forall path' a' s'',
                        create_node (Some p) path' s = Ok (Some a') s'' ->
                        take 255 (cstr path') = take 255 (cstr path) ->
                        exists n', node_at (heap s'') a' = Some n'
                                   /\ n_path n' = n_path n)).
Proof.
  split.
  - intros s parent key count value r s' H. apply create_leaf_heap in H
      as (p & np & rs & data & -> & Hp & Hc & -> & Hread & ->).
    eexists. split; [|split].
    + apply leaf_at_Some. apply heap_get_new0. by rewrite attach_length.
    + intros Hnn Hlen. cbn [l_key new_leaf].
      destruct (stored_key key) as (_ & _ & ->).
      rewrite (cstr_no_nul _ Hnn). by apply take_ge.
    + intros key' r' s'' H' Heq. apply create_leaf_heap in H'
        as (p' & np' & rs' & data' & [= <-] & _ & _ & -> & _ & ->).
      eexists. split.
      * apply leaf_at_Some. apply heap_get_new0. by rewrite attach_length.
      * cbn [l_key new_leaf]. rewrite !strncpy_fresh_key. by rewrite Heq.
  - intros s p np path a s' Hn H.
    destruct (create_node_heap _ _ _ _ _ _ Hn H) as (-> & ->).
    eexists. split; [|split].
    + apply node_at_Some. apply heap_get_new0. by rewrite length_insert.
    + intros Hnn Hlen. destruct (stored_path path) as (_ & _ & Hs).
      cbn [n_path new_node] in *. rewrite Hs.
      rewrite (cstr_no_nul _ Hnn). by apply take_ge.
    + intros path' a' s'' H' Heq.
      destruct (create_node_heap _ _ _ _ _ _ Hn H') as (-> & ->).
      eexists. split.
      * apply node_at_Some. apply heap_get_new0. by rewrite length_insert.
      * cbn [n_path new_node]. unfold PATH_CAP at 2 4.
        rewrite !snprintf_s_shape. by rewrite Heq.
Qed.

Lemma stored_string_depends_on_prefix_witness :
  (create_leaf lowmem_123 (Some 0%nat) k1 3 200 no_records = Ok None one_record
   /\ exists l, leaf_at (heap one_record) (next_block no_records) = Some l
                /\ cstr (l_key l) = k1)
  /\ (node_at (heap (init_state [true; true])) 0 = Some root
      /\ create_node (Some 0%nat) k1 (init_state [true; true])
         = Ok (Some 1%nat) one_container
      /\ exists n, node_at (heap one_container) 1 = Some n
                   /\ cstr (n_path n) = k1).
Proof.
  assert (H1 : create_leaf lowmem_123 (Some 0%nat) k1 3 200 no_records
               = Ok None one_record) by (vm_compute; reflexivity).
  assert (H2 : node_at (heap (init_state [true; true])) 0 = Some root)
    by reflexivity.
  assert (H3 : create_node (Some 0%nat) k1 (init_state [true; true])
               = Ok (Some 1%nat) one_container) by (vm_compute; reflexivity).
  assert (Hk : Forall (fun b => b <> NUL) k1)
    by (repeat constructor; discriminate).
  destruct (proj1 (stored_string_depends_on_prefix lowmem_123) _ _ _ _ _ _ _ H1)
    as (l & Hl & Hrt & _).
  destruct (proj2 (stored_string_depends_on_prefix lowmem_123) _ _ _ _ _ _ H2 H3)
    as (n & Hn & Hrt' & _).
  assert (L1 : (length k1 <= 127)%nat) by (vm_compute; lia).
  assert (L2 : (length k1 <= 255)%nat) by (vm_compute; lia).
  exact (conj (conj H1 (ex_intro _ l (conj Hl (Hrt Hk L1))))
              (conj H2 (conj H3 (ex_intro _ n (conj Hn (Hrt' Hk L2)))))).
Defined.

(** ** Invariants of the heap *)

Lemma forallb_lookup {A} (f : A -> bool) (l : list A) :
  forallb f l = true <-> forall i c, l !! i = Some c -> f c = true.
Proof.
  rewrite forallb_forall. split.
  - intros H i c Hi. apply H. apply list_elem_of_In.
    by apply list_elem_of_lookup_2 with i.
  - intros H c Hc. apply list_elem_of_In, list_elem_of_lookup in Hc as [i Hi]. eauto.
Qed.

(** A block of the heap with the new link is a block of the heap before,
    but for the link. *)
Lemma attach_cases h p r a i c' :
  attach h p r a !! i = Some c' ->
  exists c, h !! i = Some c
            /\ (c' = c
                \/ (exists l, c = CLeaf l /\ c' = CLeaf (with_l_east (Some a) l))
                \/ (exists n, c = CNode n /\ c' = CNode (with_n_east (Some a) n))).
Proof.
  unfold attach. intros H. destruct r as [t|].
  - destruct (h !! t) as [[| |l|]|] eqn:Et; eauto.
    apply list_lookup_insert_Some in H as [(-> & <- & Hlt)|(Hne & H)]; eauto 8.
  - destruct (h !! p) as [[|n| |]|] eqn:Ep; eauto.
    apply list_lookup_insert_Some in H as [(-> & <- & Hlt)|(Hne & H)]; eauto 8.
Qed.

(** X14: the tags are kept right: in a heap where every container carries
    [TagRoot] or [TagNode] and every record [TagLeaf], a successful
    [create_node] or [create_leaf] returns in such a heap again. *)
Theorem tags_stay_right lowmem :
  (forall s p np path a s',
      well_tagged (heap s) = true ->
      node_at (heap s) p = Some np ->
      create_node (Some p) path s = Ok (Some a) s' ->
      well_tagged (heap s') = true)
  /\ (forall s parent key count value r s',
        well_tagged (heap s) = true ->
        create_leaf lowmem parent key count value s = Ok r s' ->
        well_tagged (heap s') = true).
Proof.
  split.
  - intros s p np path a s' Hw Hn H.
    destruct (create_node_heap _ _ _ _ _ _ Hn H) as (-> & ->).
    apply node_at_Some in Hn. unfold well_tagged in *.
    rewrite forallb_app. apply andb_true_iff. split; [|reflexivity].
    apply forallb_lookup. intros i c Hi.
    apply list_lookup_insert_Some in Hi as [(-> & <- & Hlt)|(Hne & Hi)].
    + exact (proj1 (forallb_lookup _ _) Hw _ _ Hn).
    + exact (proj1 (forallb_lookup _ _) Hw _ _ Hi).
  - intros s parent key count value r s' Hw H. apply create_leaf_heap in H
      as (p & np & rs & data & -> & Hp & Hc & -> & Hread & ->).
    unfold well_tagged in *.
    rewrite forallb_app. apply andb_true_iff. split; [|reflexivity].
    apply forallb_lookup. intros i c' Hi.
    apply attach_cases in Hi as (c & Hi & [->|[(l & -> & ->)|(n & -> & ->)]]);
      exact (proj1 (forallb_lookup _ _) Hw _ _ Hi).
Qed.

Lemma tags_stay_right_witness :
  well_tagged (heap (init_state [true; true])) = true
  /\ node_at (heap (init_state [true; true])) 0 = Some root
  /\ create_node (Some 0%nat) k1 (init_state [true; true])
     = Ok (Some 1%nat) one_container
  /\ well_tagged (heap one_container) = true
  /\ well_tagged (heap one_record) = true
  /\ create_leaf lowmem_123 (Some 0%nat) k1 3 200 one_record
     = Ok (Some 1%nat) two_records
  /\ well_tagged (heap two_records) = true.
Proof.
  assert (H0 : well_tagged (heap (init_state [true; true])) = true)
    by reflexivity.
  assert (H1 : node_at (heap (init_state [true; true])) 0 = Some root)
    by reflexivity.
  assert (H2 : create_node (Some 0%nat) k1 (init_state [true; true])
               = Ok (Some 1%nat) one_container) by (vm_compute; reflexivity).
  assert (H3 : well_tagged (heap one_record) = true) by (vm_compute; reflexivity).
  assert (H4 : create_leaf lowmem_123 (Some 0%nat) k1 3 200 one_record
               = Ok (Some 1%nat) two_records) by (vm_compute; reflexivity).
  exact (conj H0 (conj H1 (conj H2
           (conj (proj1 (tags_stay_right lowmem_123) _ _ _ _ _ _ H0 H1 H2)
              (conj H3 (conj H4
                 (proj2 (tags_stay_right lowmem_123) _ _ _ _ _ _ _ H3 H4))))))).
Defined.

Lemma u16_int16 z : 0 <= z < 65536 -> u16 (int16 z) = z.
Proof.
  intros Hz. destruct (Z.lt_ge_cases z 32768).
  - rewrite int16_small by lia. unfold u16. apply Z.mod_small. lia.
  - rewrite int16_large by lia. unfold u16.
    replace (z - 65536) with (z + (-1) * 65536) by lia.
    rewrite Z.mod_add by lia. apply Z.mod_small. lia.
Qed.

Lemma omap_insert_same {A B} (f : A -> option B) (l : list A) i c c' :
  l !! i = Some c -> f c' = f c -> omap f (<[i := c']> l) = omap f l.
Proof.
  revert i. induction l as [|x l IH]; intros [|i] Hi Hf; simpl in *;
    try discriminate.
  - injection Hi as ->. by rewrite Hf.
  - specialize (IH i Hi Hf). destruct (f x); [f_equal|]; exact IH.
Qed.

Lemma value_pointers_attach h p r a :
  value_pointers (attach h p r a) = value_pointers h.
Proof.
  unfold attach, value_pointers. destruct r as [t|].
  - destruct (h !! t) as [[| |l|]|] eqn:Et; try reflexivity.
    by apply omap_insert_same with (CLeaf l).
  - destruct (h !! p) as [[|n| |]|] eqn:Ep; try reflexivity.
    by apply omap_insert_same with (CNode n).
Qed.

Lemma value_pointers_bound h b :
  values_fit h = true -> b ∈ value_pointers h -> (b < length h)%nat.
Proof.
  intros Hfit Hb. unfold value_pointers in Hb.
  apply list_elem_of_omap in Hb as (c & Hc & Hv).
  apply list_elem_of_lookup in Hc as [i Hi].
  pose proof (proj1 (forallb_lookup _ _) Hfit _ _ Hi) as Hf.
  destruct c as [| |l|]; try discriminate. unfold value_fits in Hf.
  rewrite Hv in Hf. simpl in Hf.
  destruct (h !! b) eqn:Eb; [by apply lookup_lt_Some in Eb | discriminate].
Qed.

Lemma value_fits_grow h h' c :
  (forall b bs, buf_at h (Some b) = Some bs -> buf_at h' (Some b) = Some bs) ->
  value_fits h c = true -> value_fits h' c = true.
Proof.
  intros Hkeep Hf. destruct c as [| |l|]; try reflexivity. unfold value_fits in *.
  destruct (l_value l) as [b|]; [|discriminate].
  destruct (buf_at h (Some b)) as [bs|] eqn:Eb; [|discriminate].
  by rewrite (Hkeep _ _ Eb).
Qed.

(** X15: the value buffers are kept sound: in a heap where every record has
    a value buffer of as many bytes as its length field says, read as the
    [uint16_t] it came from, and no two records share a buffer, a successful
    [create_leaf] or [create_node] returns in such a heap again. *)
Theorem values_stay_owned lowmem :
  (forall s parent key count value r s',
      values_fit (heap s) = true -> NoDup (value_pointers (heap s)) ->
      create_leaf lowmem parent key count value s = Ok r s' ->
      values_fit (heap s') = true /\ NoDup (value_pointers (heap s')))
  /\ (forall s p np path a s',
        values_fit (heap s) = true -> NoDup (value_pointers (heap s)) ->
        node_at (heap s) p = Some np ->
        create_node (Some p) path s = Ok (Some a) s' ->
        values_fit (heap s') = true /\ NoDup (value_pointers (heap s'))).
Proof.
  split.
  - intros s parent key count value r s' Hfit Hnd H. apply create_leaf_heap in H
      as (p & np & rs & data & -> & Hp & Hc & -> & Hread & Hh).
    assert (Hkeep : forall b bs, buf_at (heap s) (Some b) = Some bs ->
                                 buf_at (heap s') (Some b) = Some bs).
    { intros b bs Hb. unfold buf_at in *. rewrite Hh.
      destruct (heap s !! b) as [[| | |bs']|] eqn:Eb; try discriminate.
      pose proof (lookup_lt_Some _ _ _ Eb).
      rewrite heap_get_old by (by rewrite attach_length).
      by rewrite (attach_buf _ _ _ _ _ _ Eb). }
    split.
    + unfold values_fit. apply forallb_lookup. intros i c' Hi.
      rewrite Hh in Hi.
      apply lookup_app_Some in Hi as [Hi|(Hge & Hi)].
      * apply attach_cases in Hi as (c & Hi & Hcase).
        pose proof (proj1 (forallb_lookup _ _) Hfit _ _ Hi) as Hf.
        apply (value_fits_grow _ _ _ Hkeep) in Hf.
        destruct Hcase as [->|[(l & -> & ->)|(n & -> & ->)]]; exact Hf.
      * destruct (i - length (attach (heap s) p (last rs) (next_block s)))%nat
          as [|[|k]]; simpl in Hi; try discriminate; injection Hi as <-;
          [|reflexivity].
        unfold value_fits, buf_at. cbn [l_value l_size new_leaf]. rewrite Hh.
        rewrite heap_get_new1 by (by rewrite attach_length).
        rewrite strncpy_length by (by rewrite repeat_length).
        rewrite repeat_length, u16_int16 by apply u16_range.
        apply Z.eqb_eq. pose proof (u16_range count). lia.
    + rewrite Hh. unfold value_pointers. rewrite omap_app.
      fold (value_pointers (attach (heap s) p (last rs) (next_block s))).
      rewrite value_pointers_attach. simpl.
      apply NoDup_app. split; [assumption|]. split; [|apply NoDup_singleton].
      intros b Hb Hin. apply list_elem_of_singleton in Hin as ->.
      apply (value_pointers_bound _ _ Hfit) in Hb. unfold next_block in Hb. lia.
  - intros s p np path a s' Hfit Hnd Hn H.
    destruct (create_node_heap _ _ _ _ _ _ Hn H) as (-> & Hh).
    apply node_at_Some in Hn. pose proof (lookup_lt_Some _ _ _ Hn) as Hlt.
    assert (Hkeep : forall b bs, buf_at (heap s) (Some b) = Some bs ->
                                 buf_at (heap s') (Some b) = Some bs).
    { intros b bs Hb. unfold buf_at in *. rewrite Hh.
      destruct (heap s !! b) as [[| | |bs']|] eqn:Eb; try discriminate.
      pose proof (lookup_lt_Some _ _ _ Eb).
      rewrite heap_get_old by (by rewrite length_insert).
      rewrite list_lookup_insert_ne by congruence. by rewrite Eb. }
    split.
    + unfold values_fit. apply forallb_lookup. intros i c Hi.
      rewrite Hh in Hi. apply lookup_app_Some in Hi as [Hi|(Hge & Hi)].
      * apply list_lookup_insert_Some in Hi as [(-> & <- & _)|(Hne & Hi)];
          [reflexivity|].
        exact (value_fits_grow _ _ _ Hkeep
                 (proj1 (forallb_lookup _ _) Hfit _ _ Hi)).
      * destruct (i - length (<[p:=CNode (with_n_west (Some (next_block s)) np)]>
                                (heap s)))%nat as [|k];
          simpl in Hi; try discriminate. by injection Hi as <-.
    + rewrite Hh. unfold value_pointers. rewrite omap_app. simpl.
      rewrite app_nil_r.
      by rewrite (omap_insert_same _ _ _ (CNode np)).
Qed.

Lemma values_stay_owned_witness :
  values_fit (heap one_record) = true
  /\ NoDup (value_pointers (heap one_record))
  /\ create_leaf lowmem_123 (Some 0%nat) k1 3 200 one_record
     = Ok (Some 1%nat) two_records
  /\ values_fit (heap two_records) = true
  /\ NoDup (value_pointers (heap two_records)).
Proof.
  assert (H1 : values_fit (heap one_record) = true) by (vm_compute; reflexivity).
  assert (H2 : NoDup (value_pointers (heap one_record))).
  { apply (bool_decide_unpack _). vm_compute. exact I. }
  assert (H3 : create_leaf lowmem_123 (Some 0%nat) k1 3 200 one_record
               = Ok (Some 1%nat) two_records) by (vm_compute; reflexivity).
  exact (conj H1 (conj H2 (conj H3
           (proj1 (values_stay_owned lowmem_123) _ _ _ _ _ _ _ H1 H2 H3)))).
Defined.

(** ** [main] *)

(** The assignments at the top of [main] make the zero-filled global the
    root. *)
Lemma init_root_run o :
  exists tr, init_root (boot o) = Ok tt (mkState [CNode root] 0 o tr).
Proof. eexists. reflexivity. Qed.

Lemma main_prefix (k : ptr -> M (Z * list addr)) o :
  exists tr,
    (init_root ;;
     let* r := load_node 0 in
     let* newNode := create_node (Some 0%nat) (n_path r) in k newNode) (boot o)
    = (let* newNode := create_node (Some 0%nat) (n_path root) in k newNode)
        (mkState [CNode root] 0 o tr).
Proof.
  destruct (init_root_run o) as (tr & Hinit). exists tr.
  rewrite (bind_ok _ _ _ _ _ Hinit).
  by rewrite (bind_ok _ _ _ root (mkState [CNode root] 0 o tr)).
Qed.

(** X16: [main] never exits with the status 0.  When its first allocation
    fails it returns 1 with nothing released.  Otherwise, if [create_leaf]
    returns at all, it returns [NULL], being the first on its container:
    [main] takes that for a failure, releases the container and returns 1,
    while the child link of the root still points at the released container
    and the record and its value buffer stay allocated. *)
Theorem main_never_exits_with_0 lowmem o status freed s' :
  main lowmem (boot o) = Ok (status, freed) s' ->
  status = 1
  /\ ((hd false o = false /\ freed = [] /\ heap s' = [CNode root])
      \/ (hd false o = true /\ freed = [1%nat]
          /\ node_at (heap s') 0 = Some (with_n_west (Some 1%nat) root)
          /\ (exists l, leaf_at (heap s') 2 = Some l
                        /\ l_west l = Some 1%nat /\ l_value l = Some 3%nat)
          /\ is_Some (buf_at (heap s') (Some 3%nat)))).
Proof.
  intros H. unfold main in H. cbv zeta in H.
  destruct (main_prefix
              (fun newNode =>
                 if is_null newNode then ret (1, [])
                 else
                   let* newLeaf := create_leaf lowmem newNode sample_key 10 200 in
                   if is_null newLeaf then ret (1, released [newNode])
                   else ret (0, released [newLeaf; newNode])) o) as (tr & Hpre).
  rewrite Hpre in H. clear Hpre.
  set (s0 := mkState [CNode root] 0 o tr) in *.
  destruct (hd false o) eqn:Ho.
  - destruct o as [|[] o']; try discriminate.
    destruct (create_node_run 0 root (n_path root) s0 o' eq_refl eq_refl)
      as (tr1 & Hrun & _).
    rewrite (bind_ok _ _ _ _ _ Hrun) in H. cbn [is_null next_block] in H.
    match type of H with
    | bind _ _ ?st = _ => set (s1 := st) in *
    end.
    destruct (create_leaf lowmem (Some (next_block s0)) sample_key 10 200 s1)
      as [r s2| | |] eqn:Hleaf.
    2-4: unfold bind in H; rewrite Hleaf in H; discriminate.
    rewrite (bind_ok _ _ _ _ _ Hleaf) in H.
    apply create_leaf_heap in Hleaf
      as (p & np & rs & data & [= <-] & Hp & Hc & -> & _ & Hh).
    injection Hp as <-. inversion Hc; subst rs. simpl in H.
    injection H as <- <- <-. split; [reflexivity|]. right.
    rewrite Hh. repeat split.
    eexists. repeat split.
    by eexists.
  - assert (Hfail : hd false (oracle s0) = false) by exact Ho.
    rewrite (bind_ok _ _ _ _ _ (create_node_no_memory 0 _ _ Hfail)) in H.
    injection H as <- <- <-. split; [reflexivity|]. left. by repeat split.
Qed.

Lemma main_never_exits_with_0_witness :
  main lowmem_zero (boot [true; true; true])
  = Ok (1, [1%nat]) (final_state (main lowmem_zero (boot [true; true; true])))
  /\ main unmapped (boot [false]) = Ok (1, []) (final_state (main unmapped (boot [false])))
  /\ 1 = 1.
Proof.
  assert (H1 : main lowmem_zero (boot [true; true; true])
               = Ok (1, [1%nat])
                    (final_state (main lowmem_zero (boot [true; true; true]))))
    by (vm_compute; reflexivity).
  assert (H2 : main unmapped (boot [false])
               = Ok (1, []) (final_state (main unmapped (boot [false]))))
    by (vm_compute; reflexivity).
  exact (conj H1 (conj H2 (proj1 (main_never_exits_with_0 _ _ _ _ _ H1)))).
Defined.

(** X17: the earlier [main] returns 0 when its allocation succeeds and 1
    when it fails, and never stops otherwise.  On success it releases the
    container it has created, and the child link of the root still points
    at it. *)
Theorem main_node_only_status o :
  exists s',
    main_node_only (boot o)
    = Ok (if hd false o then (0, [1%nat]) else (1, [])) s'
    /\ node_at (heap s') 0
       = Some (if hd false o then with_n_west (Some 1%nat) root else root).
Proof.
  unfold main_node_only. cbv zeta.
  destruct (main_prefix
              (fun node => if is_null node then ret (1, [])
                           else ret (0, released [node])) o) as (tr & ->).
  set (s0 := mkState [CNode root] 0 o tr).
  destruct (hd false o) eqn:Ho.
  - destruct o as [|[] o']; try discriminate.
    destruct (create_node_run 0 root (n_path root) s0 o' eq_refl eq_refl)
      as (tr1 & Hrun & _).
    rewrite (bind_ok _ _ _ _ _ Hrun). eexists. split; reflexivity.
  - assert (Hfail : hd false (oracle s0) = false) by exact Ho.
    rewrite (bind_ok _ _ _ _ _ (create_node_no_memory 0 _ _ Hfail)).
    eexists. split; reflexivity.
Qed.

(** ** [zero] *)





